(** * MassMessage list updater: a shallow embedding and its properties

    This development models [enwiki/massmessage_list_updater.py]:
    [get_json_from_page], [validate_config] and
    [UserGroupsMassMessageListUpdater.treat_page], and proves the
    properties stated about them.

    Conventions of the model.
    - A [pywikibot.Page] of the (single) site is represented by its
      canonical title, a [pywikibot.User] by its user name (the title
      without the namespace).  Titles and names are ASCII strings.
    - [page_dict] is a finite map from users to pages, the entry
      ['>nonusers'] of the Python dictionary is kept in a separate field.
    - Calls into pywikibot that read the wiki ([user.groups()], the
      ordering of [Page] objects, [json.loads], the content model of a
      page) are parameters of the model.
    - The kill switch [check_disabled] and the prompt of [put_current]
      are outside the model: [treat_page] returns what it hands to
      [put_current]. *)

From Stdlib Require Import ZArith Ascii.
From stdpp Require Import base gmap sets list strings sorting pretty.

Set Warnings "-clear-no-such-hyp".
Local Open Scope Z_scope.
Local Open Scope string_scope.

(** ** Titles, namespaces and users *)

Module Title.

Definition Page := string.
Definition User := string.

(** [span_until c s]: the longest prefix of [s] without the character
    [c], and the remainder (which is empty or starts with [c]). *)
Fixpoint span_until (c : ascii) (s : string) : string * string :=
  match s with
  | EmptyString => (EmptyString, EmptyString)
  | String a s' =>
      if Ascii.eqb a c then (EmptyString, s)
      else let '(p, r) := span_until c s' in (String a p, r)
  end.

(** The tail of [s] from its first line feed on: what [.*] leaves
    unmatched. *)
Fixpoint drop_line (s : string) : string :=
  match s with
  | EmptyString => EmptyString
  | String a s' => if Ascii.eqb a "010"%char then s else drop_line s'
  end.

(** [re.sub(r'^([^/]+).*', r'\1', title)] *)
Definition base_title (title : string) : string :=
  match span_until "/"%char title with
  | (EmptyString, _) => title
  | (p, r) => p +:+ drop_line r
  end.

(** The namespace prefix and the rest of a title, split at the first
    colon. *)
Definition split_ns (title : string) : option (string * string) :=
  match span_until ":"%char title with
  | (p, String _ r) => Some (p, r)
  | (_, EmptyString) => None
  end.

(** Canonical namespace names of the wiki and their numbers; a title
    whose prefix is none of them is in the main namespace. *)
Definition namespaces : list (string * Z) :=
  [("Talk", 1); ("User", 2); ("User talk", 3); ("Wikipedia", 4);
   ("Wikipedia talk", 5); ("File", 6); ("File talk", 7);
   ("MediaWiki", 8); ("MediaWiki talk", 9); ("Template", 10);
   ("Template talk", 11); ("Help", 12); ("Help talk", 13);
   ("Category", 14); ("Category talk", 15)].

Fixpoint assoc (k : string) (l : list (string * Z)) : option Z :=
  match l with
  | [] => None
  | (k', v) :: l' => if String.eqb k k' then Some v else assoc k l'
  end.

(** [page.namespace().id] *)
Definition namespace_id (title : Page) : Z :=
  match split_ns title with
  | Some (p, _) => default 0 (assoc p namespaces)
  | None => 0
  end.

(** [page.title(with_ns=False)] *)
Definition title_without_ns (title : Page) : string :=
  match split_ns title with
  | Some (p, r) => match assoc p namespaces with Some _ => r | None => title end
  | None => title
  end.

(** [page.namespace().id not in (2, 3)] is [negb (is_user_ns page)]. *)
Definition is_user_ns (title : Page) : bool :=
  bool_decide (namespace_id title = 2) || bool_decide (namespace_id title = 3).

(** [page.isTalkPage()]: odd, non-negative namespace number. *)
Definition isTalkPage (title : Page) : bool :=
  bool_decide (0 <= namespace_id title) && Z.odd (namespace_id title).

(** [pywikibot.User(site, name)] seen as a page, and its talk page. *)
Definition user_page (u : User) : Page := "User:" +:+ u.
Definition user_talk_page (u : User) : Page := "User talk:" +:+ u.

(** [page.toggleTalkPage()] on the user namespaces. *)
Definition toggleTalkPage (title : Page) : Page :=
  if bool_decide (namespace_id title = 3) then user_page (title_without_ns title)
  else if bool_decide (namespace_id title = 2) then user_talk_page (title_without_ns title)
  else title.

(** [pywikibot.User(page)] for a page of the user namespace. *)
Definition User_of_page (title : Page) : User := title_without_ns title.

(** The user a current target belongs to (lines 206-212). *)
Definition target_user (page : Page) : User :=
  let base_page := base_title page in
  if isTalkPage base_page then User_of_page (toggleTalkPage base_page)
  else User_of_page base_page.

(** *** The rename substitution

    [re.sub(r':{}\b'.format(re.escape(old)), ':{}'.format(new), title)]:
    every occurrence of [":" ++ old] that ends at a word boundary is
    replaced, scanning from the left without overlaps.  (The new name is
    taken to hold no backslash, which the replacement template would
    interpret.) *)

(** [\w] on ASCII. *)
Definition is_word (c : ascii) : bool :=
  let n := N_of_ascii c in
  ((48 <=? n) && (n <=? 57) || (65 <=? n) && (n <=? 90)
   || (97 <=? n) && (n <=? 122) || (n =? 95))%N.

Definition head_is_word (s : string) : bool :=
  match s with
  | EmptyString => false
  | String a _ => is_word a
  end.

(** [strip_prefix p s]: what follows [p] in [s], if [s] starts with [p];
    the flag tells whether the last character of [p] is a word
    character ([w] when [p] is empty). *)
Fixpoint strip_prefix (w : bool) (p s : string) : option (bool * string) :=
  match p with
  | EmptyString => Some (w, s)
  | String a p' =>
      match s with
      | EmptyString => None
      | String b s' => if Ascii.eqb a b then strip_prefix (is_word a) p' s' else None
      end
  end.

(** Does [pat\b] match at the start of [s]? *)
Definition matches_at (pat s : string) : bool :=
  match strip_prefix false pat s with
  | Some (w, rest) => xorb w (head_is_word rest)
  | None => false
  end.

(** The scan of [re.sub] for the non-empty literal [pat]: [skip]
    counts the characters of a match still to be passed over. *)
Fixpoint sub_scan (pat repl : string) (skip : nat) (s : string) : string :=
  match s with
  | EmptyString => EmptyString
  | String a s' =>
      match skip with
      | S k => sub_scan pat repl k s'
      | O =>
          if matches_at pat s
          then repl +:+ sub_scan pat repl (Nat.pred (String.length pat)) s'
          else String a (sub_scan pat repl 0 s')
      end
  end.

Definition rename_title (old new : User) (title : Page) : Page :=
  sub_scan (":" +:+ old) (":" +:+ new) 0 title.

(** The last character of a name is a word character, so that the word
    boundary of the pattern is met at the end of a title. *)
Fixpoint ends_in_word (s : string) : bool :=
  match s with
  | EmptyString => false
  | String a EmptyString => is_word a
  | String _ s' => ends_in_word s'
  end.

End Title.

Import Title.

(** ** The data of a run *)

(** One list's entry of the configuration after [validate_config]:
    [group] is the set built from the configured group name, the
    optional switches are read with [page_config.get(key, None)]. *)
Record page_config := PageConfig {
  group : gset string;
  add : option bool;
  remove : option bool;
  required : option bool;
  enabled : bool
}.

(** Truth value of [page_config.get(key, None)]. *)
Definition truthy (o : option bool) : bool := default false o.

(** An element of the option ['renames'], built in [main] from the rename
    log.  (The option's default, a single record of [None]s, compares
    unequal to every user and so acts as the empty list.) *)
Record rename := Rename {
  olduser : User;
  newuser : User;
  rename_timestamp : Z
}.

(** An element of the option ['group_changes']. *)
Record group_change := GroupChange {
  user : User;
  added : gset string;
  removed : gset string;
  change_timestamp : Z
}.

(** The content of a MassMessage list page: [page_json]. *)
Record list_json := ListJson {
  description : string;
  targets : list Page
}.

(** The local variables of [treat_page]. *)
Record bot_state := BotState {
  page_dict : gmap User Page;
  nonusers : gset Page;
  added_count : nat;
  removed_count : nat;
  renamed_count : nat
}.

Definition initial_state : bot_state := BotState ∅ ∅ 0 0 0.

(** [page_dict.pop('>nonusers') | set(page_dict.values())] *)
Definition final_entries (st : bot_state) : gset Page :=
  nonusers st ∪ map_img (page_dict st).

(** [set1 & set2] as a condition. *)
Definition intersects (X Y : gset string) : bool := bool_decide (X ∩ Y ≠ ∅).

(** ** [treat_page] *)

Section Bot.
(** [user.groups()], the live group membership. *)
Context (groups : User → gset string).
(** The order of [Page] objects used by [sorted]. *)
Context (page_le : relation Page) `{!RelDecision page_le}.

(** The body of the loop over the renames (lines 214-236), on the
    triple of [user], [page] and the number of renames applied. *)
Definition rename_step (acc : User * Page * nat) (r : rename) : User * Page * nat :=
  let '(usr, page, n) := acc in
  if decide (usr = olduser r)
  then (newuser r, rename_title usr (newuser r) page, S n)
  else acc.

Definition handle_renames (renames : list rename) (usr : User) (page : Page)
  : User * Page * nat :=
  foldl rename_step (usr, page, 0%nat) renames.

(** The user, the page and the number of renames that the rename loop
    leaves for the target [t]. *)
Definition final_user (renames : list rename) (t : Page) : User :=
  (handle_renames renames (target_user t) t).1.1.
Definition final_page (renames : list rename) (t : Page) : Page :=
  (handle_renames renames (target_user t) t).1.2.
Definition rename_hits (renames : list rename) (t : Page) : nat :=
  (handle_renames renames (target_user t) t).2.

(** The required-group check of lines 237-245 fails for the target [t]. *)
Definition evicted (cfg : page_config) (renames : list rename) (t : Page) : bool :=
  truthy (required cfg)
  && negb (intersects (group cfg) (groups (final_user renames t))).

(** The body of the loop over the current targets (lines 201-246). *)
Definition treat_target (cfg : page_config) (renames : list rename)
    (st : bot_state) (title : string) : bot_state :=
  let page := title in
  if negb (is_user_ns page) then
    BotState (page_dict st) ({[page]} ∪ nonusers st)
             (added_count st) (removed_count st) (renamed_count st)
  else
    let '(usr, page, n) := handle_renames renames (target_user page) page in
    if truthy (required cfg) && negb (intersects (group cfg) (groups usr)) then
      BotState (page_dict st) (nonusers st)
               (added_count st) (S (removed_count st)) (renamed_count st + n)
    else
      BotState (<[usr := page]> (page_dict st)) (nonusers st)
               (added_count st) (removed_count st) (renamed_count st + n).

(** The body of the loop over the group changes (lines 249-265). *)
Definition handle_change (cfg : page_config) (st : bot_state) (change : group_change)
  : bot_state :=
  let usr := user change in
  let st :=
    if truthy (add cfg)
       && intersects (group cfg) (added change)
       && negb (bool_decide ("bot" ∈ groups usr))
       && negb (bool_decide (is_Some (page_dict st !! usr)))
    then BotState (<[usr := toggleTalkPage (user_page usr)]> (page_dict st)) (nonusers st)
                  (S (added_count st)) (removed_count st) (renamed_count st)
    else st in
  if truthy (remove cfg) && intersects (group cfg) (removed change) then
    match page_dict st !! usr with
    | Some _ =>
        BotState (delete usr (page_dict st)) (nonusers st)
                 (added_count st) (S (removed_count st)) (renamed_count st)
    | None => st
    end
  else st.

(** The two loops of [treat_page], in the order of the code. *)
Definition seed (cfg : page_config) (renames : list rename) (tgts : list Page)
  : bot_state :=
  foldl (treat_target cfg renames) initial_state tgts.

Definition reconcile (cfg : page_config) (renames : list rename)
    (group_changes : list group_change) (tgts : list Page) : bot_state :=
  foldl (handle_change cfg) (seed cfg renames tgts) group_changes.

(** [sorted(page_dict.pop('>nonusers') | set(page_dict.values()))],
    as titles. *)
Definition new_targets (st : bot_state) : list Page :=
  merge_sort page_le (elements (final_entries st)).

(** The edit summary (lines 277-281). *)
Definition summary_of (st : bot_state) : string :=
  let summary :=
    "Update MassMessage list: " +:+ pretty (added_count st) +:+ " added, "
      +:+ pretty (removed_count st) +:+ " removed" in
  if bool_decide (0 < renamed_count st)%nat
  then summary +:+ ", " +:+ pretty (renamed_count st) +:+ " renamed"
  else summary.

(** What [treat_page] hands to [put_current]: the new content and the
    summary, or nothing when the list is left alone. *)
Definition save_request (page_json : list_json) (st : bot_state)
  : option (list_json * string) :=
  if bool_decide (0 < added_count st + removed_count st + renamed_count st)%nat
  then Some (ListJson (description page_json) (new_targets st), summary_of st)
  else None.

Definition treat_page (cfg : page_config) (renames : list rename)
    (group_changes : list group_change) (page_json : list_json)
  : bot_state * option (list_json * string) :=
  let st := reconcile cfg renames group_changes (targets page_json) in
  (st, save_request page_json st).

(** What the first loop leaves: the invariant of the loop over the
    current targets. *)
Record seeded (cfg : page_config) (renames : list rename) (l : list Page)
    (st : bot_state) : Prop := {
  seeded_added : added_count st = 0%nat;
  seeded_renamed :
    renamed_count st = sum_list_with (rename_hits renames) (filter (λ t, is_user_ns t = true) l);
  seeded_removed :
    removed_count st =
      length (filter (λ t, is_user_ns t && evicted cfg renames t = true) l);
  seeded_nonusers : ∀ p, p ∈ nonusers st ↔ p ∈ l ∧ is_user_ns p = false;
  seeded_dict : ∀ u q, page_dict st !! u = Some q →
    ∃ t, t ∈ l ∧ is_user_ns t = true ∧ evicted cfg renames t = false
         ∧ final_user renames t = u ∧ final_page renames t = q;
  seeded_kept : ∀ t, t ∈ l → is_user_ns t = true → evicted cfg renames t = false →
    is_Some (page_dict st !! final_user renames t)
}.

End Bot.

(** Reduce the fields of an explicit [bot_state]. *)
Ltac proj_state :=
  cbn [page_dict nonusers added_count removed_count renamed_count] in *.

(** ** JSON values, [get_json_from_page] and [validate_config] *)

(** What [json.loads] returns.  An object keeps the order of its keys, as
    a Python [dict] does; [JNull] is Python's [None].  Numbers are never
    inspected by the code and are kept as integers. *)
#[warnings="-register-all"] Inductive json :=
  | JNull
  | JBool (b : bool)
  | JNumber (n : Z)
  | JString (s : string)
  | JArray (l : list json)
  | JObject (l : list (string * json)).

Inductive exception := ValueError | TypeError.

(** A call either returns a value or raises. *)
Inductive outcome (A : Type) :=
  | Return (a : A)
  | Raise (e : exception).
Arguments Return {A} a.
Arguments Raise {A} e.

(** What the code reads of a [pywikibot.Page]. *)
Record wiki_page := WikiPage {
  page_exists : bool;
  page_isRedirectPage : bool;
  page_isEmpty : bool;
  page_get : string
}.

Module Strip.
(** [str.isspace] on ASCII. *)
Definition is_space (c : ascii) : bool :=
  let n := N_of_ascii c in
  ((9 <=? n) && (n <=? 13) || (28 <=? n) && (n <=? 32))%N.

Fixpoint lstrip (s : string) : string :=
  match s with
  | EmptyString => EmptyString
  | String a s' => if is_space a then lstrip s' else s
  end.

(** [s.strip()] *)
Definition strip (s : string) : string :=
  String.rev (lstrip (String.rev (lstrip s))).
End Strip.

Section Config.
(** [json.loads]: [None] stands for raising [ValueError]. *)
Context (json_loads : string → option json).
(** [pywikibot.Page(site, title).content_model] *)
Context (content_model : string → string).

Definition get_json_from_page (page : wiki_page) : outcome json :=
  if negb (page_exists page) then Return JNull
  else if page_isRedirectPage page then Return JNull
  else if page_isEmpty page then Return JNull
  else match json_loads (Strip.strip (page_get page)) with
       | Some j => Return j
       | None => Raise ValueError
       end.

(** The values met while iterating over [page_config.items()]: those of
    the JSON object, and the [Page] stored under ['page']. *)
Inductive config_value :=
  | FromJson (j : json)
  | PageObject (title : string).

(** [d[k] = v] on a dictionary kept as the list of its items. *)
Fixpoint set_item {V} (k : string) (v : V) (d : list (string * V)) : list (string * V) :=
  match d with
  | [] => [(k, v)]
  | (k', v') :: d' => if String.eqb k k' then (k, v) :: d' else (k', v') :: set_item k v d'
  end.

Definition required_keys : list string := ["enabled"; "group"; "page"].
Definition switch_keys : list string := ["add"; "enabled"; "remove"; "required"].

(** The checks on one item (lines 87-99): [false] is [return False]. *)
Definition check_item (key : string) (value : config_value) : bool :=
  if bool_decide (key ∈ switch_keys) then
    match value with FromJson (JBool _) => true | _ => false end
  else if bool_decide (key = "group") then
    match value with FromJson (JString _) => true | _ => false end
  else if bool_decide (key = "page") then
    match value with
    | PageObject title => bool_decide (content_model title = "MassMessageListContent")
    | FromJson _ => false
    end
  else false.

(** The loop over the items (lines 84-99): [None] is [return False],
    otherwise the final [has_keys]. *)
Fixpoint scan_items (items : list (string * config_value)) (has_keys : list string)
  : option (list string) :=
  match items with
  | [] => Some has_keys
  | (key, value) :: items' =>
      let has_keys :=
        if bool_decide (key ∈ required_keys) then (has_keys ++ [key])%list else has_keys in
      if check_item key value then scan_items items' has_keys else None
  end.

(** [sorted] on strings. *)
Definition sorted_strings (l : list string) : list string := merge_sort String.le l.

(** One turn of the loop over [config.items()] for an entry that is an
    object (lines 80-101): [false] is [return False]. *)
Definition validate_page_config (title : string) (fields : list (string * json)) : bool :=
  let items := set_item "page" (PageObject title) (prod_map id FromJson <$> fields) in
  match scan_items items [] with
  | None => false
  | Some has_keys => bool_decide (sorted_strings has_keys = sorted_strings required_keys)
  end.

Fixpoint validate_entries (entries : list (string * json)) : outcome bool :=
  match entries with
  | [] => Return true
  | (title, JObject fields) :: entries' =>
      if validate_page_config title fields then validate_entries entries'
      else Return false
  | (_, _) :: _ => Raise TypeError
  end.

Definition validate_config (config : json) : outcome bool :=
  match config with
  | JObject entries => validate_entries entries
  | _ => Return false
  end.

(** The entries that pass: the list page has the MassMessage content
    model, ["enabled"] is a boolean and ["group"] a string, and every
    other key is one of the optional switches with a boolean, or
    ["page"] (whose value is overwritten before it is read). *)
Definition entry_accepted (title : string) (fields : list (string * json)) : Prop :=
  content_model title = "MassMessageListContent"
  ∧ (∃ b, ("enabled", JBool b) ∈ fields)
  ∧ (∃ g, ("group", JString g) ∈ fields)
  ∧ ∀ k v, (k, v) ∈ fields →
      (k ∈ switch_keys ∧ ∃ b, v = JBool b) ∨ (k = "group" ∧ ∃ g, v = JString g)
      ∨ k = "page".

(** A JSON object read by [json.loads] is a dictionary: its keys are
    distinct. *)
Definition is_dict (fields : list (string * json)) : Prop := NoDup fields.*1.

End Config.

(** ** The reconciler as the specification words it

    This second model is not taken from the code: it follows the
    algorithm of the specification (seed, re-validate, merge the two
    event sequences by timestamp, apply the events one by one), so that
    the code can be compared with it. *)

Module Spec.

Record ListPolicy := {
  groupFilter : gset string;
  p_add : bool;
  p_remove : bool;
  p_required : bool
}.

Definition policy_of (cfg : page_config) : ListPolicy :=
  {| groupFilter := group cfg; p_add := truthy (add cfg);
     p_remove := truthy (remove cfg); p_required := truthy (required cfg) |}.

Inductive event :=
  | ERename (r : rename)
  | EChange (c : group_change).

(** Step 3: one sequence in timestamp order, a rename before a group
    change of the same timestamp. *)
Fixpoint merge_events (rs : list rename) : list group_change → list event :=
  fix merge_aux (cs : list group_change) : list event :=
    match rs, cs with
    | [], _ => EChange <$> cs
    | _, [] => ERename <$> rs
    | r :: rs', c :: cs' =>
        if bool_decide (rename_timestamp r <= change_timestamp c)
        then ERename r :: merge_events rs' cs
        else EChange c :: merge_aux cs'
    end.

Record ReconciliationResult := {
  finalEntries : gset Page;
  r_added : nat;
  r_removed : nat;
  r_renamed : nat
}.

Section Reference.
Context (liveGroupsOf : User → gset string).
Context (policy : ListPolicy).

(** Step 1: the working map and the non-user entries. *)
Definition seed_entry (acc : gmap User Page * gset Page) (p : Page)
  : gmap User Page * gset Page :=
  if is_user_ns p then (<[target_user p := p]> acc.1, acc.2)
  else (acc.1, {[p]} ∪ acc.2).

Definition seed_entries (currentEntries : list Page) : gmap User Page * gset Page :=
  foldl seed_entry (∅, ∅) currentEntries.

(** Step 2: the standing re-validation against live membership. *)
Definition holds_filter_group (u : User) : bool :=
  bool_decide (liveGroupsOf u ∩ groupFilter policy ≠ ∅).

Definition revalidate (m : gmap User Page) : gmap User Page :=
  if p_required policy then filter (λ kv, holds_filter_group kv.1 = true) m else m.

(** Step 4, on the working map and the three counters.  [alias]
    redirects the names of later events: after an applied rename of
    [old] to [new], an event still naming [old] is applied to [new]. *)
Record work := {
  w_map : gmap User Page;
  w_added : nat;
  w_removed : nat;
  w_renamed : nat;
  alias : User → User
}.

Definition apply_rename (w : work) (r : rename) : work :=
  let old := alias w (olduser r) in
  let new := newuser r in
  match w_map w !! old with
  | Some _ =>
      {| w_map := <[new := user_talk_page new]> (delete old (w_map w));
         w_added := w_added w; w_removed := w_removed w;
         w_renamed := S (w_renamed w);
         alias := λ u, if decide (alias w u = old) then new else alias w u |}
  | None => w
  end.

Definition apply_change (w : work) (c : group_change) : work :=
  let usr := alias w (user c) in
  let w :=
    if p_add policy
       && bool_decide (added c ∩ groupFilter policy ≠ ∅)
       && negb (bool_decide ("bot" ∈ liveGroupsOf usr))
       && negb (bool_decide (is_Some (w_map w !! usr)))
    then {| w_map := <[usr := user_talk_page usr]> (w_map w);
            w_added := S (w_added w); w_removed := w_removed w;
            w_renamed := w_renamed w; alias := alias w |}
    else w in
  if p_remove policy
     && bool_decide (removed c ∩ groupFilter policy ≠ ∅)
     && bool_decide (is_Some (w_map w !! usr))
  then {| w_map := delete usr (w_map w);
          w_added := w_added w; w_removed := S (w_removed w);
          w_renamed := w_renamed w; alias := alias w |}
  else w.

Definition apply_event (w : work) (e : event) : work :=
  match e with
  | ERename r => apply_rename w r
  | EChange c => apply_change w c
  end.

Definition reconcile_ref (currentEntries : list Page) (renames : list rename)
    (changes : list group_change) : ReconciliationResult :=
  let '(m0, others) := seed_entries currentEntries in
  let m1 := revalidate m0 in
  let w0 := {| w_map := m1; w_added := 0; w_removed := size m0 - size m1;
               w_renamed := 0; alias := id |} in
  let w := foldl apply_event w0 (merge_events renames changes) in
  {| finalEntries := others ∪ map_img (w_map w);
     r_added := w_added w; r_removed := w_removed w; r_renamed := w_renamed w |}.
End Reference.

(** The state of the code and the working state of the reference hold
    the same dictionary and the same counters. *)
Definition agrees (st : bot_state) (w : work) : Prop :=
  page_dict st = w_map w ∧ added_count st = w_added w
  ∧ removed_count st = w_removed w ∧ renamed_count st = w_renamed w.

(** Policy loading, section 4.4: an entry is rejected if it lacks a
    required key, if its group is neither a group name nor a set of group
    names, or if it has an unrecognised key.  (The key [page] is the list
    the entry is filed under.) *)
Definition is_group_name (j : json) : bool :=
  match j with JString _ => true | _ => false end.

Definition group_ok (j : json) : bool :=
  match j with
  | JString _ => true
  | JArray l => forallb is_group_name l
  | _ => false
  end.

Definition recognised_keys : list string :=
  ["enabled"; "group"; "page"; "add"; "remove"; "required"].

Definition entry_ok (fields : list (string * json)) : bool :=
  bool_decide ("enabled" ∈ fields.*1)
  && bool_decide ("group" ∈ fields.*1)
  && forallb (λ kv, bool_decide (kv.1 ∈ recognised_keys)) fields
  && forallb (λ kv, negb (String.eqb kv.1 "group") || group_ok kv.2) fields.

Definition config_ok (config : json) : bool :=
  match config with
  | JObject entries =>
      forallb (λ e, match e.2 with JObject fields => entry_ok fields | _ => false end)
              entries
  | _ => false
  end.

(** The result of the code, in the same shape. *)
Definition result_of (st : bot_state) : ReconciliationResult :=
  {| finalEntries := final_entries st; r_added := added_count st;
     r_removed := removed_count st; r_renamed := renamed_count st |}.

End Spec.

(** ** Renames seen on users

    The user a name stands for after the renames, and the number of
    renames applied on the way: the rename loop without the page. *)
Definition rename_user (r : rename) (u : User) : User :=
  if decide (u = olduser r) then newuser r else u.

Fixpoint renamed_user (renames : list rename) (u : User) : User :=
  match renames with
  | [] => u
  | r :: renames' => renamed_user renames' (rename_user r u)
  end.

Fixpoint rename_count (renames : list rename) (u : User) : nat :=
  match renames with
  | [] => 0
  | r :: renames' =>
      ((if decide (u = olduser r) then 1 else 0) + rename_count renames' (rename_user r u))%nat
  end.

(** The users of the current targets, in the order of the list. *)
Definition current_users (tgts : list Page) : list User :=
  target_user <$> filter (λ t, is_user_ns t = true) tgts.

(** The dictionary that holds the talk page of each user of a list. *)
Definition talk_map (us : list User) : gmap User Page :=
  list_to_map ((λ u, (u, user_talk_page u)) <$> us).

(** ** The kill switch: [check_disabled]

    The shutoff page is read as a [wiki_page]; the result tells whether
    the bot quits (lines 182-187). *)
Definition check_disabled (shutoff : wiki_page) : bool :=
  if page_exists shutoff then
    let content := Strip.strip (page_get shutoff) in
    negb (String.eqb content EmptyString)
  else false.

(** Every character is white space. *)
Fixpoint all_space (s : string) : bool :=
  match s with
  | EmptyString => true
  | String a s' => Strip.is_space a && all_space s'
  end.

(** [main] on the configuration page (lines 317-323): the JSON of the
    page is validated; [Return false] is the refusal to run. *)
Definition load_config (json_loads : string → option json)
    (content_model : string → string) (page : wiki_page) : outcome bool :=
  match get_json_from_page json_loads page with
  | Return config => validate_config content_model config
  | Raise e => Raise e
  end.

(** ** The options of [main] and [validate_options] *)

Record date := Date { year : Z; month : Z; day : Z }.

(** The values an option can hold: a [datetime.date], a string, a
    boolean (the flags are [True]) or [None]. *)
Inductive option_value :=
  | VDate (d : date)
  | VStr (s : string)
  | VBool (b : bool)
  | VNone.

(** [d.get(k)] on a dictionary kept as the list of its items. *)
Fixpoint get_item {V} (k : string) (d : list (string * V)) : option V :=
  match d with
  | [] => None
  | (k', v) :: d' => if String.eqb k k' then Some v else get_item k d'
  end.

(** [p in s] for strings: [p] occurs in [s]. *)
Fixpoint is_substring (p s : string) : bool :=
  String.prefix p s
  || match s with
     | EmptyString => false
     | String _ s' => is_substring p s'
     end.

Definition option_keys : list string := ["config"; "end_date"; "start_date"].

Section Options.
(** [datetime.datetime.strptime(value, '%Y-%m-%d').date()]: [None]
    stands for raising [ValueError]. *)
Context (strptime : string → option date).

(** One turn of the loop over the two date options (lines 117-131):
    [None] is [return False]. *)
Definition check_date_option (key : string) (options : list (string * option_value))
  : option (list (string * option_value)) :=
  match get_item key options with
  | None => Some options
  | Some (VDate d) => Some (set_item key (VDate d) options)
  | Some (VStr s) =>
      match strptime s with
      | Some d => Some (set_item key (VDate d) options)
      | None => None
      end
  | Some _ => None
  end.

(** The checks on one item (lines 136-141).  The second test is written
    [key in 'end_date' 'start_date'] in the code: the two literals are
    one string, and [in] looks for [key] inside it. *)
Definition check_option (key : string) (value : option_value) : bool :=
  if String.eqb key "config" then
    match value with VStr _ => true | _ => false end
  else if is_substring key "end_datestart_date" then
    match value with VDate _ => true | _ => false end
  else true.

(** The loop over the items (lines 132-141): [None] is [return False],
    otherwise the final [has_keys]. *)
Fixpoint scan_options (items : list (string * option_value)) (has_keys : list string)
  : option (list string) :=
  match items with
  | [] => Some has_keys
  | (key, value) :: items' =>
      let has_keys :=
        if bool_decide (key ∈ option_keys) then (has_keys ++ [key])%list else has_keys in
      if check_option key value then scan_options items' has_keys else None
  end.

(** [validate_options]: the result, and the options as the call leaves
    them. *)
Definition validate_options (options : list (string * option_value))
  : bool * list (string * option_value) :=
  match check_date_option "end_date" options with
  | None => (false, options)
  | Some options1 =>
      match check_date_option "start_date" options1 with
      | None => (false, options1)
      | Some options2 =>
          match scan_options options2 [] with
          | None => (false, options2)
          | Some has_keys =>
              (bool_decide (sorted_strings has_keys = sorted_strings option_keys),
               options2)
          end
      end
  end.

(** The date an option value stands for, if any. *)
Definition date_of (value : option_value) : option date :=
  match value with
  | VDate d => Some d
  | VStr s => strptime s
  | _ => None
  end.

(** The item of a dictionary after the date option [key] has been
    replaced by its date. *)
Definition convert_date_option (key : string) (kv : string * option_value)
  : string * option_value :=
  if String.eqb kv.1 key
  then (kv.1, match date_of kv.2 with Some d => VDate d | None => kv.2 end)
  else kv.

(** The condition under which an option passes the second loop, seen on
    the options given to the call. *)
Definition option_accepted (key : string) (value : option_value) : Prop :=
  if String.eqb key "config" then ∃ s, value = VStr s
  else if bool_decide (key ∈ ["end_date"; "start_date"]) then
    (∃ d, value = VDate d) ∨ (∃ s, value = VStr s ∧ is_Some (strptime s))
  else is_substring key "end_datestart_date" = true → ∃ d, value = VDate d.

End Options.

(** ** The command line of [main] (lines 292-311) *)

(** [arg.partition(':')], without the separator. *)
Definition partition_colon (s : string) : string * string :=
  match span_until ":" s with
  | (p, String _ r) => (p, r)
  | (p, EmptyString) => (p, EmptyString)
  end.

(** [arg[1:]] *)
Definition drop_first (s : string) : string :=
  match s with
  | EmptyString => EmptyString
  | String _ s' => s'
  end.

(** The name and the value of a command line argument. *)
Definition arg_name (arg : string) : string := drop_first (partition_colon arg).1.
Definition arg_value (arg : string) : string := (partition_colon arg).2.

Section Args.
(** [pywikibot.input('Please enter a value for ...')] *)
Context (input : string → string).

Definition parse_arg (options : list (string * option_value)) (arg : string)
  : list (string * option_value) :=
  let '(name, value) := partition_colon arg in
  let name := drop_first name in
  if bool_decide (name ∈ option_keys) then
    let value := if String.eqb value EmptyString then input name else value in
    set_item name (VStr value) options
  else set_item name (VBool true) options.

Definition parse_args (yesterday : date) (local_args : list string)
  : list (string * option_value) :=
  foldl parse_arg [("end_date", VDate yesterday); ("start_date", VDate yesterday)]
        local_args.

(** An argument that [validate_options] lets through: [-config], a date
    option with a date that parses, or a flag whose name does not occur
    in the text [end_datestart_date]. *)
Definition arg_accepted (strptime : string → option date) (arg : string) : Prop :=
  arg_name arg = "config"
  ∨ (arg_name arg ∈ ["end_date"; "start_date"]
     ∧ is_Some (strptime (if String.eqb (arg_value arg) EmptyString
                          then input (arg_name arg) else arg_value arg)))
  ∨ ((arg_name arg ∉ option_keys)
     ∧ is_substring (arg_name arg) "end_datestart_date" = false).

End Args.

(** ** The log events of [main] (lines 330-395) *)

(** [sorted(l, key=...)]: the stable sort by an integer key. *)
Fixpoint insert_by {A} (key : A → Z) (x : A) (l : list A) : list A :=
  match l with
  | [] => [x]
  | y :: l' => if bool_decide (key x <= key y) then x :: l else y :: insert_by key x l'
  end.

Definition sort_by {A} (key : A → Z) (l : list A) : list A :=
  foldr (insert_by key) [] l.

(** An entry of the rename log: a field is [None] where reading it
    raises [KeyError]. *)
Record rename_event := RenameEvent {
  re_olduser : option string;
  re_newuser : option string;
  re_timestamp : Z
}.

Definition rename_of (e : rename_event) : option rename :=
  match re_olduser e, re_newuser e with
  | Some old, Some new => Some (Rename old new (re_timestamp e))
  | _, _ => None
  end.

(** [options['renames']] (lines 341-356). *)
Definition renames_of (rename_events : list rename_event) : list rename :=
  sort_by rename_timestamp (omap rename_of rename_events).

(** An entry of the rights log: the groups and the title of the page are
    [None] where reading them raises [KeyError]. *)
Record rights_event := RightsEvent {
  ev_groups : option (list string * list string);
  ev_title : option string;
  ev_timestamp : Z
}.

(** [title.endswith(suffix)] *)
Fixpoint ends_with (suffix s : string) : bool :=
  String.eqb s suffix
  || match s with
     | EmptyString => false
     | String _ s' => ends_with suffix s'
     end.

(** [re.sub(r'{}$'.format(suffix), '', title)] for a title without line
    feed and a suffix without regular expression operators. *)
Fixpoint remove_suffix (suffix s : string) : string :=
  if String.eqb s suffix then EmptyString
  else match s with
       | EmptyString => EmptyString
       | String a s' => String a (remove_suffix suffix s')
       end.

(** The body of the loop over the rights events (lines 374-392):
    [ev_groups] holds [newgroups] and [oldgroups]. *)
Definition group_change_of (suffix : string) (e : rights_event) : option group_change :=
  match ev_groups e, ev_title e with
  | Some (newgroups, oldgroups), Some title =>
      let new_groups : gset string := list_to_set newgroups in
      let old_groups : gset string := list_to_set oldgroups in
      Some (GroupChange (User_of_page (remove_suffix suffix title))
                        (new_groups ∖ old_groups) (old_groups ∖ new_groups)
                        (ev_timestamp e))
  | _, _ => None
  end.

(** [options['group_changes']] (lines 374-395), from the events in the
    order in which the loop meets them. *)
Definition group_changes_of (suffix : string) (rights_events : list rights_event)
  : list group_change :=
  sort_by change_timestamp (omap (group_change_of suffix) rights_events).

(** The events of the second wiki that are kept (lines 364-372); the
    code holds them in a set, whose order of iteration is not fixed. *)
Definition is_local_user (suffix : string) (e : rights_event) : bool :=
  match ev_title e with
  | Some title => ends_with suffix title
  | None => false
  end.

Definition meta_rights_events (suffix : string) (meta_events : list rights_event)
  : list rights_event :=
  filter (λ e, is_local_user suffix e = true) meta_events.

(** Every page of the dictionary is a page of the user namespaces. *)
Definition user_pages_only (st : bot_state) : Prop :=
  ∀ u q, page_dict st !! u = Some q → is_user_ns q = true.

(** ** Sample data *)

Module Samples.
(** Nobody holds any group. *)
Definition no_groups : User → gset string := λ _, ∅.
(** Everybody is a sysop. *)
Definition all_sysop : User → gset string := λ _, {["sysop"]}.

(** [{"enabled": true, "group": "sysop", "add": true, "remove": true,
    "required": false}] after validation. *)
Definition sysop_policy : page_config :=
  PageConfig {["sysop"]} (Some true) (Some true) (Some false) true.

(** The same list with ["required": true]. *)
Definition sysop_required : page_config :=
  PageConfig {["sysop"]} (Some true) (Some true) (Some true) true.

(** An add-only list that re-validates its members: ["add": true,
    "required": true] and no ["remove"]. *)
Definition add_required : page_config :=
  PageConfig {["sysop"]} (Some true) None (Some true) true.

Definition mass_message (title : string) : string := "MassMessageListContent".

(** A parser that knows one date. *)
Definition one_date (s : string) : option date :=
  if String.eqb s "2020-01-05" then Some (Date 2020 1 5) else None.

(** No prompt is answered. *)
Definition no_input (name : string) : string := EmptyString.
End Samples.

(** * Properties *)

(** ** Titles *)

Lemma toggleTalkPage_user_page (u : User) :
  toggleTalkPage (user_page u) = user_talk_page u.
Proof. reflexivity. Qed.

Lemma is_user_ns_user_talk_page (u : User) : is_user_ns (user_talk_page u) = true.
Proof. reflexivity. Qed.

Lemma is_user_ns_user_page (u : User) : is_user_ns (user_page u) = true.
Proof. reflexivity. Qed.

Example base_title_sub : base_title "User talk:Alice/Archive/1" = "User talk:Alice".
Proof. reflexivity. Qed.
Example target_user_talk : target_user "User talk:Alice/x" = "Alice".
Proof. reflexivity. Qed.
Example target_user_user : target_user "User:Bob" = "Bob".
Proof. reflexivity. Qed.
Example rename_title_talk :
  rename_title "Alice" "Alicia" "User talk:Alice/x" = "User talk:Alicia/x".
Proof. reflexivity. Qed.
Example rename_title_longer : rename_title "Al" "Bo" "User talk:Alice" = "User talk:Alice".
Proof. reflexivity. Qed.
Example rename_title_no_boundary :
  rename_title "Al (WMF)" "Bo" "User talk:Al (WMF)" = "User talk:Al (WMF)".
Proof. reflexivity. Qed.

Section BotFacts.
Context (groups : User → gset string).
Context (page_le : relation Page) `{!RelDecision page_le}.

(** C2. The concrete scenario: the list holds Alice's talk page, the
    policy is [{"sysop"}] with add and remove on and required off, Bob
    (who is not a bot) gains sysop at time 1 and Alice loses it at
    time 2. The final entries are Bob's talk page alone, with one
    addition, one removal and no rename. *)
Theorem concrete_scenario :
  "bot" ∉ groups "Bob" →
  let st := reconcile groups Samples.sysop_policy []
              [GroupChange "Bob" {["sysop"]} ∅ 1; GroupChange "Alice" ∅ {["sysop"]} 2]
              ["User talk:Alice"] in
  final_entries st = {[user_talk_page "Bob"]}
  ∧ added_count st = 1%nat ∧ removed_count st = 1%nat ∧ renamed_count st = 0%nat.
Proof.
  intros Hbot. apply (bool_decide_eq_false_2 _) in Hbot.
  cbv [reconcile seed foldl treat_target handle_change user].
  rewrite Hbot. vm_compute. repeat split; reflexivity.
Qed.

(** C8. A write is issued exactly when one of the three counters is
    positive: with all counters zero [treat_page] hands nothing to
    [put_current], and otherwise it hands over the new content together
    with the summary of the counts. *)
Theorem write_iff_change (cfg : page_config) (renames : list rename)
    (group_changes : list group_change) (page_json : list_json) :
  let r := treat_page groups page_le cfg renames group_changes page_json in
  (r.2 = None ↔
     added_count r.1 = 0%nat ∧ removed_count r.1 = 0%nat ∧ renamed_count r.1 = 0%nat)
  ∧ (r.2 = None
     ∨ r.2 = Some (ListJson (description page_json) (new_targets page_le r.1),
                   summary_of r.1)).
Proof.
  cbn. unfold save_request. case_bool_decide as Hpos; split.
  - split; [done | lia].
  - by right.
  - split; [lia | done].
  - by left.
Qed.

End BotFacts.

Example summary_of_counts : summary_of (BotState ∅ ∅ 2 1 0) = "Update MassMessage list: 2 added, 1 removed".
Proof. reflexivity. Qed.
Example summary_of_renamed :
  summary_of (BotState ∅ ∅ 0 1 3) = "Update MassMessage list: 0 added, 1 removed, 3 renamed".
Proof. reflexivity. Qed.

Lemma concrete_scenario_witness :
  ("bot" ∉ Samples.no_groups "Bob")
  ∧ (let st := reconcile Samples.no_groups Samples.sysop_policy []
                [GroupChange "Bob" {["sysop"]} ∅ 1; GroupChange "Alice" ∅ {["sysop"]} 2]
                ["User talk:Alice"] in
    final_entries st = {[user_talk_page "Bob"]}
    ∧ added_count st = 1%nat ∧ removed_count st = 1%nat ∧ renamed_count st = 0%nat).
Proof.
  split; [ | apply (concrete_scenario Samples.no_groups) ]; vm_compute; set_solver.
Defined.

(** ** The materialised list *)

Section Materialise.
Context (page_le : relation Page) `{!RelDecision page_le}.
Context `{!PartialOrder page_le} `{!Total page_le}.

Lemma new_targets_elem (st : bot_state) (p : Page) :
  p ∈ new_targets page_le st ↔ p ∈ final_entries st.
Proof.
  unfold new_targets. rewrite merge_sort_Permutation. apply elem_of_elements.
Qed.

Lemma new_targets_NoDup (st : bot_state) : NoDup (new_targets page_le st).
Proof.
  unfold new_targets. rewrite merge_sort_Permutation. apply NoDup_elements.
Qed.

Lemma sorted_NoDup_strict (l : list Page) :
  StronglySorted page_le l → NoDup l → StronglySorted (strict page_le) l.
Proof.
  induction 1 as [|x l Hl IH Hx]; intros Hnd; [constructor|].
  apply NoDup_cons in Hnd as [Hxl Hnd]. constructor; [by apply IH|].
  apply Forall_forall. intros y Hy. apply strict_spec_alt. split.
  - by eapply Forall_forall in Hx.
  - intros ->. done.
Qed.

End Materialise.


(** ** Reading the configuration page *)

Section ConfigFacts.
Context (json_loads : string → option json).

(** C10. [get_json_from_page] returns [None] for a page that does not
    exist, is a redirect or is empty; otherwise it returns what
    [json.loads] makes of the stripped text, and raises the parse error
    when that text is not valid JSON. *)
Theorem get_json_from_page_cases (page : wiki_page) :
  (page_exists page = false ∨ page_isRedirectPage page = true ∨ page_isEmpty page = true →
     get_json_from_page json_loads page = Return JNull)
  ∧ (page_exists page = true → page_isRedirectPage page = false →
     page_isEmpty page = false →
       (∀ j, json_loads (Strip.strip (page_get page)) = Some j →
             get_json_from_page json_loads page = Return j)
       ∧ (json_loads (Strip.strip (page_get page)) = None →
             get_json_from_page json_loads page = Raise ValueError)).
Proof.
  unfold get_json_from_page. destruct page as [ex red emp text]; cbn. split.
  - intros [-> | [-> | ->]]; [done| |]; destruct ex; cbn; [done..| |done].
    by destruct red.
  - intros -> -> ->; cbn. split; [intros j ->|intros ->]; done.
Qed.
End ConfigFacts.

(** ** The first loop: the current targets *)

Section SeedFacts.
Context (groups : User → gset string).

Lemma treat_target_nonuser cfg renames st t :
  is_user_ns t = false →
  treat_target groups cfg renames st t =
    BotState (page_dict st) ({[t]} ∪ nonusers st)
             (added_count st) (removed_count st) (renamed_count st).
Proof. intros Ht. unfold treat_target. by rewrite Ht. Qed.

Lemma treat_target_evicted cfg renames st t :
  is_user_ns t = true → evicted groups cfg renames t = true →
  treat_target groups cfg renames st t =
    BotState (page_dict st) (nonusers st) (added_count st)
             (S (removed_count st)) (renamed_count st + rename_hits renames t).
Proof.
  intros Ht He. unfold treat_target, evicted, final_user, rename_hits in *.
  rewrite Ht. cbn [negb]. destruct (handle_renames _ _ _) as [[u p] n].
  cbn in He. by rewrite He.
Qed.

Lemma treat_target_kept cfg renames st t :
  is_user_ns t = true → evicted groups cfg renames t = false →
  treat_target groups cfg renames st t =
    BotState (<[final_user renames t := final_page renames t]> (page_dict st))
             (nonusers st) (added_count st) (removed_count st)
             (renamed_count st + rename_hits renames t).
Proof.
  intros Ht He.
  unfold treat_target, evicted, final_user, final_page, rename_hits in *.
  rewrite Ht. cbn [negb]. destruct (handle_renames _ _ _) as [[u p] n].
  cbn in He. by rewrite He.
Qed.

Lemma seed_seeded (cfg : page_config) (renames : list rename) (l : list Page) :
  seeded groups cfg renames l (seed groups cfg renames l).
Proof.
  unfold seed. induction l as [|t l IH] using rev_ind.
  - split; cbn; try done.
    + intros p. rewrite elem_of_nil. set_solver.
    + intros q Hq. by apply elem_of_nil in Hq.
  - rewrite foldl_snoc. destruct IH as [Ha Hr Hm Hn Hd Hk].
    remember (foldl (treat_target groups cfg renames) initial_state l) as st eqn:Hst.
    clear Hst.
    destruct (is_user_ns t) eqn:Ht.
    + destruct (evicted groups cfg renames t) eqn:He.
      * rewrite treat_target_evicted by done. split; proj_state.
        -- done.
        -- rewrite filter_app, sum_list_with_app, Hr.
           rewrite filter_cons_True by done. cbn. lia.
        -- rewrite filter_app, length_app, Hm, Nat.add_comm.
           rewrite filter_cons_True; [done | by rewrite Ht, He].
        -- intros p. rewrite Hn, elem_of_app, list_elem_of_singleton. clear -Ht. naive_solver congruence.
        -- intros u q Hq. apply Hd in Hq as (t' & ? & ?). exists t'.
           rewrite elem_of_app. naive_solver.
        -- intros q [Hq | ->%list_elem_of_singleton]%elem_of_app ? ?; [by apply Hk|].
           congruence.
      * rewrite treat_target_kept by done. split; proj_state.
        -- done.
        -- rewrite filter_app, sum_list_with_app, Hr.
           rewrite filter_cons_True by done. cbn. lia.
        -- rewrite filter_app, length_app, Hm.
           rewrite filter_cons_False; [cbn; lia | by rewrite Ht, He].
        -- intros p. rewrite Hn, elem_of_app, list_elem_of_singleton. clear -Ht. naive_solver congruence.
        -- intros u q. rewrite lookup_insert. case_decide as Hu.
           ++ intros [= <-]. exists t. rewrite elem_of_app, list_elem_of_singleton.
              naive_solver.
           ++ intros Hq. apply Hd in Hq as (t' & ? & ?). exists t'.
              rewrite elem_of_app. naive_solver.
        -- intros q [Hq | ->%list_elem_of_singleton]%elem_of_app ? ?.
           ++ rewrite lookup_insert. case_decide; [by eexists | by apply Hk].
           ++ rewrite lookup_insert_eq. by eexists.
    + rewrite treat_target_nonuser by done. split; proj_state.
      * done.
      * rewrite filter_app, sum_list_with_app, Hr.
        rewrite filter_cons_False by congruence. cbn. lia.
      * rewrite filter_app, length_app, Hm.
        rewrite filter_cons_False; [cbn; lia | by rewrite Ht].
      * intros p. rewrite elem_of_union, elem_of_singleton, Hn, elem_of_app,
          list_elem_of_singleton. clear -Ht. naive_solver congruence.
      * intros u q Hq. apply Hd in Hq as (t' & ? & ?). exists t'.
        rewrite elem_of_app. naive_solver.
      * intros q [Hq | ->%list_elem_of_singleton]%elem_of_app ? ?; [by apply Hk|].
        congruence.
Qed.

(** Without rename events a target keeps its user and its page. *)
Lemma final_user_nil t : final_user [] t = target_user t.
Proof. reflexivity. Qed.
Lemma final_page_nil t : final_page [] t = t.
Proof. reflexivity. Qed.
Lemma rename_hits_nil t : rename_hits [] t = 0%nat.
Proof. reflexivity. Qed.

Lemma reconcile_no_changes cfg renames l :
  reconcile groups cfg renames [] l = seed groups cfg renames l.
Proof. reflexivity. Qed.

(** C6. With [required] set, a current user entry whose user holds no
    group of the filter is dropped and counted as removed.  The check
    reads the live groups only: it is made for each target whatever the
    event sequences are, and in a run without any event exactly the
    entries failing it are removed, none of them being in the final
    entries. *)
Theorem required_eviction (cfg : page_config) :
  truthy (required cfg) = true →
  (∀ renames st t,
     is_user_ns t = true →
     intersects (group cfg) (groups (final_user renames t)) = false →
     let st' := treat_target groups cfg renames st t in
     page_dict st' = page_dict st ∧ nonusers st' = nonusers st
     ∧ removed_count st' = S (removed_count st))
  ∧ (∀ tgts,
     let st := reconcile groups cfg [] [] tgts in
     removed_count st =
       length (filter (λ t, is_user_ns t
                            && negb (intersects (group cfg) (groups (target_user t)))
                            = true) tgts)
     ∧ added_count st = 0%nat ∧ renamed_count st = 0%nat
     ∧ ∀ t, t ∈ tgts → is_user_ns t = true →
            intersects (group cfg) (groups (target_user t)) = false →
            t ∉ final_entries st).
Proof.
  intros Hreq. split.
  - intros renames st t Ht Hg. cbn zeta.
    rewrite treat_target_evicted; [done..|]. unfold evicted. by rewrite Hreq, Hg.
  - intros tgts. cbn zeta. rewrite reconcile_no_changes.
    destruct (seed_seeded cfg [] tgts) as [Ha Hr Hm Hn Hd Hk]. split_and!.
    + rewrite Hm. f_equal. apply list_filter_iff. intros t.
      unfold evicted. by rewrite Hreq, final_user_nil.
    + done.
    + rewrite Hr. clear. induction (filter _ tgts) as [|?? IH]; [done|].
      cbn. by rewrite IH.
    + intros t Ht Hu Hg. unfold final_entries.
      rewrite elem_of_union, elem_of_map_img, Hn. intros [[_ ?]|[u Hq]]; [congruence|].
      apply Hd in Hq as (t' & _ & _ & He & _ & Hp). rewrite final_page_nil in Hp.
      subst t'. unfold evicted in He. rewrite Hreq, final_user_nil, Hg in He. done.
Qed.
End SeedFacts.

Lemma required_eviction_witness :
  truthy (required Samples.sysop_required) = true
  ∧ (let st := reconcile Samples.no_groups Samples.sysop_required [] []
                 ["User talk:Alice"; "Wikipedia:Noticeboard"] in
     removed_count st = 1%nat ∧ user_talk_page "Alice" ∉ final_entries st).
Proof.
  split; [reflexivity|].
  destruct (required_eviction Samples.no_groups Samples.sysop_required eq_refl) as [_ H].
  destruct (H ["User talk:Alice"; "Wikipedia:Noticeboard"]) as (Hr & _ & _ & Hout).
  split; [exact Hr|].
  apply Hout; [set_solver | reflexivity | reflexivity].
Defined.

(** ** The second loop: the group changes *)

Section ChangeFacts.
Context (groups : User → gset string).

(** A group change touches the entry of the user it names, and no
    other. *)
Lemma handle_change_frame cfg st c u :
  user c ≠ u → page_dict (handle_change groups cfg st c) !! u = page_dict st !! u.
Proof.
  intros Hu. unfold handle_change.
  repeat (case_match; proj_state);
    rewrite ?lookup_delete_ne, ?lookup_insert_ne by done; done.
Qed.

Lemma handle_change_nonusers cfg st c :
  nonusers (handle_change groups cfg st c) = nonusers st.
Proof. unfold handle_change. by repeat (case_match; proj_state). Qed.

Lemma handle_change_renamed cfg st c :
  renamed_count (handle_change groups cfg st c) = renamed_count st.
Proof. unfold handle_change. by repeat (case_match; proj_state). Qed.

(** A matching removal leaves no entry for the user it names. *)
Lemma handle_change_removes cfg st c :
  truthy (remove cfg) = true → intersects (group cfg) (removed c) = true →
  page_dict (handle_change groups cfg st c) !! user c = None.
Proof.
  intros Hr Hi. unfold handle_change. rewrite Hr, Hi. cbn [andb].
  case_match; proj_state; [apply lookup_delete_eq | done].
Qed.

(** Without a matching addition, a matching removal counts one removal
    exactly when the user has an entry. *)
Lemma handle_change_removed_count cfg st c :
  truthy (remove cfg) = true → intersects (group cfg) (removed c) = true →
  intersects (group cfg) (added c) = false →
  removed_count (handle_change groups cfg st c) =
    match page_dict st !! user c with
    | Some _ => S (removed_count st)
    | None => removed_count st
    end.
Proof.
  intros Hr Hi Ha. unfold handle_change. rewrite Hr, Hi, Ha, andb_false_r.
  cbn [andb]. by case_match.
Qed.

Lemma changes_frame cfg st changes u :
  (∀ c, c ∈ changes → user c ≠ u) →
  page_dict (foldl (handle_change groups cfg) st changes) !! u = page_dict st !! u.
Proof.
  revert st. induction changes as [|c changes IH]; intros st Hu; [done|].
  cbn [foldl]. rewrite IH by (intros; apply Hu; set_solver).
  apply handle_change_frame, Hu. set_solver.
Qed.

Lemma changes_nonusers cfg st changes :
  nonusers (foldl (handle_change groups cfg) st changes) = nonusers st.
Proof.
  revert st. induction changes as [|c changes IH]; intros st; [done|].
  cbn [foldl]. by rewrite IH, handle_change_nonusers.
Qed.

Lemma changes_renamed cfg st changes :
  renamed_count (foldl (handle_change groups cfg) st changes) = renamed_count st.
Proof.
  revert st. induction changes as [|c changes IH]; intros st; [done|].
  cbn [foldl]. by rewrite IH, handle_change_renamed.
Qed.

(** A single rename event. *)
Lemma final_user_single r t :
  final_user [r] t = if decide (target_user t = olduser r) then newuser r else target_user t.
Proof. unfold final_user, handle_renames. cbn. by case_decide. Qed.
Lemma final_page_single r t :
  final_page [r] t =
    if decide (target_user t = olduser r)
    then rename_title (olduser r) (newuser r) t else t.
Proof.
  unfold final_page, handle_renames. cbn.
  destruct (decide _) as [Heq|]; cbn; [by rewrite Heq | done].
Qed.
Lemma rename_hits_single r t :
  rename_hits [r] t = if decide (target_user t = olduser r) then 1%nat else 0%nat.
Proof. unfold rename_hits, handle_renames. cbn. by case_decide. Qed.


End ChangeFacts.





(** ** Running again on the result *)

Section Rerun.
Context (groups : User → gset string).
Context (page_le : relation Page) `{!RelDecision page_le}.

Lemma sum_list_with_zero {A} (f : A → nat) (l : list A) :
  (∀ x, x ∈ l → f x = 0%nat) → sum_list_with f l = 0%nat.
Proof.
  induction l as [|x l IH]; intros Hf; [done|]. cbn.
  rewrite Hf, IH by set_solver. done.
Qed.

Lemma filter_none {A} (P : A → Prop) `{!∀ x, Decision (P x)} (l : list A) :
  (∀ x, x ∈ l → ¬ P x) → filter P l = [].
Proof.
  induction l as [|x l IH]; intros Hl; [done|].
  rewrite filter_cons_False by (apply Hl; set_solver). apply IH. intros; apply Hl; set_solver.
Qed.

(** A list in which every user entry passes the required-group check and
    no two user entries belong to one user is left as it is by a run
    without events. *)
Lemma seed_fixpoint (cfg : page_config) (l : list Page) :
  (truthy (required cfg) = true → ∀ p, p ∈ l → is_user_ns p = true →
     intersects (group cfg) (groups (target_user p)) = true) →
  (∀ p q, p ∈ l → q ∈ l → is_user_ns p = true → is_user_ns q = true →
     target_user p = target_user q → p = q) →
  let st := seed groups cfg [] l in
  final_entries st = list_to_set l
  ∧ added_count st = 0%nat ∧ removed_count st = 0%nat ∧ renamed_count st = 0%nat.
Proof.
  intros Hreq Hinj. cbn zeta.
  destruct (seed_seeded groups cfg [] l) as [Ha Hr Hm Hn Hd Hk].
  assert (∀ p, p ∈ l → is_user_ns p = true → evicted groups cfg [] p = false) as Hev.
  { intros p Hp Hu. unfold evicted. destruct (truthy (required cfg)) eqn:Hq; [|done].
    rewrite final_user_nil, Hreq by done. done. }
  split_and!.
  - apply set_eq. intros p. unfold final_entries.
    rewrite elem_of_union, elem_of_map_img, Hn, elem_of_list_to_set. split.
    + intros [[? _]|[u Hq]]; [done|].
      apply Hd in Hq as (t & Ht & _ & _ & _ & Hp). by rewrite final_page_nil in Hp; subst.
    + intros Hp. destruct (is_user_ns p) eqn:Hu; [right|by left].
      destruct (Hk p Hp Hu (Hev p Hp Hu)) as [q Hq]. exists (final_user [] p).
      rewrite Hq. f_equal. apply Hd in Hq as (t & Ht & Hut & _ & Hfu & Hfp).
      rewrite final_page_nil in Hfp. subst q. rewrite !final_user_nil in Hfu.
      by apply Hinj.
  - done.
  - rewrite Hm, filter_none; [done|].
    intros p Hp. destruct (is_user_ns p) eqn:Hu; [|done]. by rewrite Hev.
  - rewrite Hr. apply sum_list_with_zero. by intros.
Qed.

(** C5 (as the code has it). Running again, without events, on the list
    a previous run produced returns the same entries, counts nothing and
    writes nothing, provided the user entries of that list still pass the
    required-group check (when [required] is set) and no two of them
    belong to one user. *)
Theorem rerun_without_events (cfg : page_config) (renames : list rename)
    (group_changes : list group_change) (page_json : list_json) :
  let st1 := (treat_page groups page_le cfg renames group_changes page_json).1 in
  (truthy (required cfg) = true → ∀ p, p ∈ final_entries st1 → is_user_ns p = true →
     intersects (group cfg) (groups (target_user p)) = true) →
  (∀ p q, p ∈ final_entries st1 → q ∈ final_entries st1 →
     is_user_ns p = true → is_user_ns q = true →
     target_user p = target_user q → p = q) →
  let r2 := treat_page groups page_le cfg [] []
              (ListJson (description page_json) (new_targets page_le st1)) in
  final_entries r2.1 = final_entries st1
  ∧ added_count r2.1 = 0%nat ∧ removed_count r2.1 = 0%nat ∧ renamed_count r2.1 = 0%nat
  ∧ r2.2 = None.
Proof.
  cbn zeta. cbn [fst snd treat_page targets]. intros Hreq Hinj.
  set (st1 := reconcile groups cfg renames group_changes (targets page_json)) in *.
  assert (∀ p, p ∈ new_targets page_le st1 ↔ p ∈ final_entries st1) as Hel.
  { intros p. unfold new_targets. rewrite merge_sort_Permutation. apply elem_of_elements. }
  rewrite reconcile_no_changes.
  destruct (seed_fixpoint cfg (new_targets page_le st1)) as (Hf & Ha & Hm & Hr).
  { intros Hq p Hp. apply Hreq; [done | by apply Hel]. }
  { intros p q Hp Hq. apply Hinj; by apply Hel. }
  split_and!; try done.
  - rewrite Hf. apply set_eq. intros p. by rewrite elem_of_list_to_set.
  - unfold save_request. rewrite Ha, Hm, Hr. done.
Qed.
End Rerun.

Lemma rerun_without_events_witness :
  let page_json := ListJson "Admins" ["User talk:Alice"; "Wikipedia:Noticeboard"] in
  let changes := [GroupChange "Bob" {["sysop"]} ∅ 1; GroupChange "Alice" ∅ {["sysop"]} 2] in
  let st1 := (treat_page Samples.all_sysop String.le Samples.sysop_required []
                changes page_json).1 in
  let r2 := treat_page Samples.all_sysop String.le Samples.sysop_required [] []
              (ListJson "Admins" (new_targets String.le st1)) in
  new_targets String.le st1 = ["User talk:Bob"; "Wikipedia:Noticeboard"]
  ∧ final_entries r2.1 = final_entries st1 ∧ r2.2 = None.
Proof.
  cbn zeta. split; [reflexivity|].
  assert (final_entries (treat_page Samples.all_sysop String.le Samples.sysop_required []
            [GroupChange "Bob" {["sysop"]} ∅ 1; GroupChange "Alice" ∅ {["sysop"]} 2]
            (ListJson "Admins" ["User talk:Alice"; "Wikipedia:Noticeboard"])).1
          = {["User talk:Bob"; "Wikipedia:Noticeboard"]}) as Hfin by reflexivity.
  destruct (rerun_without_events Samples.all_sysop String.le Samples.sysop_required []
              [GroupChange "Bob" {["sysop"]} ∅ 1; GroupChange "Alice" ∅ {["sysop"]} 2]
              (ListJson "Admins" ["User talk:Alice"; "Wikipedia:Noticeboard"]))
    as (Hsame & _ & _ & _ & Hnone).
  - intros _ p Hp Hu. reflexivity.
  - intros p q Hp Hq Hup Huq _. rewrite Hfin in Hp, Hq.
    apply elem_of_union in Hp as [Hp|Hp], Hq as [Hq|Hq];
      apply elem_of_singleton in Hp as ->, Hq as ->; first [reflexivity | discriminate].
  - split; assumption.
Defined.

(** C5, the claim as stated fails: on an add-only list with [required]
    set, Bob gains sysop at time 1 and loses it at time 2, so he holds no
    group now.  The first run adds his talk page (additions are not
    re-validated); the next run, without any event, evicts it and counts
    one removal. *)
Lemma rerun_evicts_added_user :
  let st1 := reconcile Samples.no_groups Samples.add_required []
               [GroupChange "Bob" {["sysop"]} ∅ 1; GroupChange "Bob" ∅ {["sysop"]} 2] [] in
  let r2 := treat_page Samples.no_groups String.le Samples.add_required [] []
              (ListJson "Admins" (new_targets String.le st1)) in
  new_targets String.le st1 = ["User talk:Bob"]
  ∧ final_entries r2.1 = ∅ ∧ removed_count r2.1 = 1%nat
  ∧ final_entries r2.1 ≠ final_entries st1 ∧ r2.2 ≠ None.
Proof. vm_compute. split_and!; [reflexivity..|discriminate|discriminate]. Qed.

(** ** Validating the configuration *)

Lemma get_json_from_page_cases_witness :
  let json_loads := λ s : string, if String.eqb s "null" then Some JNull else None in
  get_json_from_page json_loads (WikiPage false false false "{}") = Return JNull
  ∧ get_json_from_page json_loads (WikiPage true false false " null ") = Return JNull
  ∧ get_json_from_page json_loads (WikiPage true false false " {oops ") = Raise ValueError.
Proof.
  cbn zeta.
  set (json_loads := λ s : string, if String.eqb s "null" then Some JNull else None).
  split; [|split].
  - destruct (get_json_from_page_cases json_loads (WikiPage false false false "{}"))
      as [H _].
    apply H. left. reflexivity.
  - destruct (get_json_from_page_cases json_loads (WikiPage true false false " null "))
      as [_ H].
    destruct H as [H _]; [reflexivity..|]. apply H. reflexivity.
  - destruct (get_json_from_page_cases json_loads (WikiPage true false false " {oops "))
      as [_ H].
    destruct H as [_ H]; [reflexivity..|]. apply H. reflexivity.
Defined.

Section ValidateFacts.
Context (content_model : string → string).

Lemma elem_of_set_item {V} (k : string) (v : V) (d : list (string * V)) k' v' :
  NoDup d.*1 →
  (k', v') ∈ set_item k v d ↔ (k' = k ∧ v' = v) ∨ (k' ≠ k ∧ (k', v') ∈ d).
Proof.
  induction d as [|[k0 v0] d IH]; cbn; intros Hnd.
  - rewrite list_elem_of_singleton, elem_of_nil. naive_solver.
  - apply NoDup_cons in Hnd as [Hk0 Hnd].
    destruct (String.eqb_spec k k0) as [->|Hne]; rewrite !elem_of_cons, ?IH by done.
    + split.
      * intros [[= -> ->]|Hin]; [by left|]. right. split; [|by right].
        intros ->. apply Hk0, list_elem_of_fmap. by exists (k0, v').
      * intros [[-> ->]|[Hk [[= ? ?]|Hin]]]; [by left|done|by right].
    + split.
      * intros [[= -> ->]|[?|[? ?]]]; [right; split; [done|by left]|by left|].
        right. split; [done|by right].
      * intros [?|[Hk [?|?]]]; [right; by left|by left|]. right. by right.
Qed.

Lemma set_item_keys {V} (k : string) (v : V) (d : list (string * V)) k' :
  k' ∈ (set_item k v d).*1 ↔ k' = k ∨ k' ∈ d.*1.
Proof.
  induction d as [|[k0 v0] d IH]; cbn.
  - rewrite list_elem_of_singleton, elem_of_nil. naive_solver.
  - destruct (String.eqb_spec k k0) as [->|Hne]; cbn; rewrite !elem_of_cons, ?IH; naive_solver.
Qed.

Lemma set_item_NoDup {V} (k : string) (v : V) (d : list (string * V)) :
  NoDup d.*1 → NoDup (set_item k v d).*1.
Proof.
  induction d as [|[k0 v0] d IH]; cbn; intros Hnd.
  - apply NoDup_singleton.
  - apply NoDup_cons in Hnd as [Hk0 Hnd].
    destruct (String.eqb_spec k k0) as [->|Hne]; cbn; apply NoDup_cons; split; auto.
    rewrite set_item_keys. naive_solver.
Qed.

(** The loop over the items returns [has_keys] extended with the
    required keys met, unless a check fails. *)
Lemma scan_items_spec (items : list (string * config_value)) (acc : list string) :
  scan_items content_model items acc =
    if bool_decide (Forall (λ kv, check_item content_model kv.1 kv.2 = true) items)
    then Some (acc ++ filter (λ k, k ∈ required_keys) items.*1)%list
    else None.
Proof.
  revert acc. induction items as [|[k v] items IH]; intros acc; cbn [scan_items].
  - rewrite bool_decide_eq_true_2 by constructor. cbn. by rewrite app_nil_r.
  - destruct (check_item content_model k v) eqn:Hc.
    + rewrite IH. cbn [fmap list_fmap fst].
      destruct (bool_decide (Forall _ items)) eqn:Hall.
      * apply bool_decide_eq_true_1 in Hall.
        rewrite (bool_decide_eq_true_2 (Forall _ (_ :: _)))
          by (constructor; [exact Hc | exact Hall]).
        f_equal.
        case_bool_decide.
        -- rewrite filter_cons_True by done. by rewrite <- app_assoc.
        -- by rewrite filter_cons_False.
      * apply bool_decide_eq_false_1 in Hall.
        rewrite (bool_decide_eq_false_2 (Forall _ (_ :: _))); [done|].
        intros Hf. by inv Hf.
    + rewrite (bool_decide_eq_false_2 (Forall _ (_ :: _))); [done|].
      intros Hf. inv Hf. cbn in *. congruence.
Qed.

Lemma sorted_strings_eq_iff (l k : list string) :
  sorted_strings l = sorted_strings k ↔ l ≡ₚ k.
Proof.
  unfold sorted_strings. split.
  - intros Heq. rewrite <- (merge_sort_Permutation String.le l), Heq.
    apply merge_sort_Permutation.
  - intros Hp. apply (StronglySorted_unique String.le).
    + apply StronglySorted_merge_sort; apply _.
    + apply StronglySorted_merge_sort; apply _.
    + by rewrite !merge_sort_Permutation.
Qed.

Lemma has_keys_complete (keys : list string) :
  NoDup keys →
  filter (λ k, k ∈ required_keys) keys ≡ₚ required_keys
  ↔ "enabled" ∈ keys ∧ "group" ∈ keys ∧ "page" ∈ keys.
Proof.
  intros Hnd. split.
  - intros Hp. split_and!;
      (eapply (list_elem_of_filter (λ k, k ∈ required_keys)); rewrite Hp;
       unfold required_keys; set_solver).
  - intros (He & Hg & Hp). apply NoDup_Permutation.
    + by apply NoDup_filter.
    + unfold required_keys. repeat (apply NoDup_cons; split; [set_solver|]).
      apply NoDup_nil_2.
    + intros x. rewrite list_elem_of_filter. split; [tauto|]. intros Hx. split; [done|].
      unfold required_keys in Hx. set_unfold. naive_solver.
Qed.

Lemma switch_keys_not_group (k : string) : k ∈ switch_keys → k ≠ "group" ∧ k ≠ "page".
Proof.
  unfold switch_keys. rewrite !elem_of_cons, elem_of_nil.
  intros [->|[->|[->|[->|[]]]]]; done.
Qed.

Lemma check_item_json (k : string) (j : json) :
  check_item content_model k (FromJson j) = true ↔
    (k ∈ switch_keys ∧ ∃ b, j = JBool b) ∨ (k = "group" ∧ ∃ g, j = JString g).
Proof.
  unfold check_item. case_bool_decide as Hs.
  - pose proof (switch_keys_not_group k Hs) as [Hg _].
    destruct j; split; try done; try (intros [[_ [? ?]]|[? _]]; done); eauto.
  - case_bool_decide as Hg.
    + destruct j; split; try done; try (intros [[? _]|[_ [? ?]]]; done); eauto.
    + case_bool_decide; split; try done; intros [[? _]|[? _]]; done.
Qed.

Lemma check_item_page (k title : string) :
  check_item content_model k (PageObject title) = true ↔
    k = "page" ∧ content_model title = "MassMessageListContent".
Proof.
  unfold check_item. case_bool_decide as Hs.
  - pose proof (switch_keys_not_group k Hs) as [_ Hp]. split; [done|]. by intros [? _].
  - case_bool_decide as Hg; [split; [done|]; by intros [-> _]|].
    case_bool_decide as Hp; [|split; [done|]; by intros [? _]].
    rewrite bool_decide_eq_true. tauto.
Qed.

Lemma elem_of_json_items (fields : list (string * json)) k v :
  (k, v) ∈ (prod_map id FromJson <$> fields) ↔ ∃ j, v = FromJson j ∧ (k, j) ∈ fields.
Proof.
  rewrite list_elem_of_fmap. split.
  - intros ([k' j] & [= -> ->] & ?). eauto.
  - intros (j & -> & ?). by exists (k, j).
Qed.

Lemma elem_of_keys {V} (d : list (string * V)) (k : string) :
  k ∈ d.*1 ↔ ∃ v, (k, v) ∈ d.
Proof.
  rewrite list_elem_of_fmap. split.
  - intros ([k' v] & -> & ?). by exists v.
  - intros [v ?]. by exists (k, v).
Qed.

Lemma json_items_keys (fields : list (string * json)) :
  (prod_map id FromJson <$> fields).*1 = fields.*1.
Proof. induction fields as [|[] ? IH]; [done|]. cbn. by rewrite IH. Qed.

Lemma validate_page_config_spec (title : string) (fields : list (string * json)) :
  is_dict fields →
  validate_page_config content_model title fields = true
  ↔ entry_accepted content_model title fields.
Proof.
  intros Hnd. unfold validate_page_config. rewrite scan_items_spec. cbn [app].
  set (items := set_item "page" (PageObject title) (prod_map id FromJson <$> fields)).
  assert (NoDup items.*1) as Hnd'.
  { apply set_item_NoDup. by rewrite json_items_keys. }
  assert (∀ k, k ∈ items.*1 ↔ k = "page" ∨ k ∈ fields.*1) as Hkeys.
  { intros k. unfold items. by rewrite set_item_keys, json_items_keys. }
  assert (Forall (λ kv, check_item content_model kv.1 kv.2 = true) items
          ↔ content_model title = "MassMessageListContent"
            ∧ ∀ k j, (k, j) ∈ fields → k ≠ "page" →
                check_item content_model k (FromJson j) = true) as Hall.
  { rewrite Forall_forall. unfold items. split.
    - intros Hf. split.
      + apply (check_item_page "page"), (Hf ("page", PageObject title)).
        apply elem_of_set_item; [by rewrite json_items_keys|]. by left.
      + intros k j Hkj Hk. apply (Hf (k, FromJson j)).
        apply elem_of_set_item; [by rewrite json_items_keys|].
        right. split; [done|]. apply elem_of_json_items. eauto.
    - intros [Hcm Hf] [k v] Hkv.
      apply elem_of_set_item in Hkv as [[-> ->]|[Hk Hkv]];
        [| |by rewrite json_items_keys]; cbn.
      + by apply check_item_page.
      + apply elem_of_json_items in Hkv as (j & -> & ?). by apply Hf. }
  unfold entry_accepted. case_bool_decide as Hc.
  - rewrite bool_decide_eq_true, sorted_strings_eq_iff, has_keys_complete by done.
    rewrite !Hkeys. apply Hall in Hc as [Hcm Hf]. split.
    + intros ([?|He] & [?|Hg] & _); try done. split_and!; [done| | |].
      * apply elem_of_keys in He as [j Hin].
        destruct (proj1 (check_item_json _ _) (Hf _ _ Hin ltac:(done)))
          as [[_ [b ->]]|[? _]]; [eauto|done].
      * apply elem_of_keys in Hg as [j Hin].
        destruct (proj1 (check_item_json _ _) (Hf _ _ Hin ltac:(done)))
          as [[Hs _]|[_ [g ->]]]; [|eauto].
        by apply switch_keys_not_group in Hs as [? _].
      * intros k v Hkv. destruct (decide (k = "page")) as [|Hk]; [tauto|].
        apply (Hf _ _ Hkv) in Hk. apply check_item_json in Hk. tauto.
    + intros (_ & [b Hb] & [g Hg] & _). split_and!; [right|right|by left].
      * apply list_elem_of_fmap. by exists ("enabled", JBool b).
      * apply list_elem_of_fmap. by exists ("group", JString g).
  - split; [done|]. intros (Hcm & _ & _ & Hf). destruct Hc. apply Hall. split; [done|].
    intros k j Hkj Hk. apply check_item_json. destruct (Hf _ _ Hkj) as [?|[?|?]]; tauto.
Qed.

(** C7 (as the code has it). A configuration is accepted exactly when it
    is an object each of whose entries is an object with a boolean
    ["enabled"], a string ["group"], booleans for the optional switches
    and no other key but ["page"], filed under a page whose content model
    is that of a MassMessage list.  In particular a group given as a list
    of names is rejected, and so is anything that is not an object. *)
Theorem validate_config_accepts (entries : list (string * json)) :
  (∀ title fields, (title, JObject fields) ∈ entries → is_dict fields) →
  (validate_config content_model (JObject entries) = Return true
   ↔ Forall (λ e, ∃ fields, e.2 = JObject fields
                    ∧ entry_accepted content_model e.1 fields) entries)
  ∧ (∀ title fields names,
       (title, JObject fields) ∈ entries → ("group", JArray names) ∈ fields →
       validate_config content_model (JObject entries) ≠ Return true).
Proof.
  intros Hd. cbn [validate_config].
  assert (validate_entries content_model entries = Return true
          ↔ Forall (λ e, ∃ fields, e.2 = JObject fields
                      ∧ entry_accepted content_model e.1 fields) entries) as Hiff.
  { induction entries as [|[title pc] entries IH]; cbn [validate_entries].
    - split; [constructor|done].
    - rewrite Forall_cons. cbn [fst snd].
      destruct pc as [| | | | |fields]; try (split; [done|]; intros [(? & ? & _) _]; done).
      pose proof (validate_page_config_spec title fields) as Hv.
      destruct (validate_page_config content_model title fields).
      + rewrite IH by (intros; eapply Hd; by right). split.
        * intros ?. split; [|done]. exists fields. split; [done|]. apply Hv; [|done].
          eapply Hd. by left.
        * tauto.
      + split; [done|]. intros [(f & [= <-] & Hacc) _]. apply Hv in Hacc; [done|].
        eapply Hd. by left. }
  split; [exact Hiff|].
  intros title fields names Hin Hg Hok. apply Hiff in Hok.
  eapply Forall_forall in Hok; [|exact Hin].
  destruct Hok as (f & Heq & (_ & _ & _ & Hf)). cbn in Heq. injection Heq as <-.
  destruct (Hf _ _ Hg) as [[_ [? ?]]|[[_ [? ?]]|?]]; done.
Qed.
End ValidateFacts.

Lemma validate_config_accepts_witness :
  let entries :=
    [("Wikipedia:Administrators list",
      JObject [("enabled", JBool true); ("group", JString "sysop"); ("add", JBool true)])] in
  (∀ title fields, (title, JObject fields) ∈ entries → is_dict fields)
  ∧ validate_config Samples.mass_message (JObject entries) = Return true
  ∧ Forall (λ e, ∃ fields, e.2 = JObject fields
                   ∧ entry_accepted Samples.mass_message e.1 fields) entries.
Proof.
  cbn zeta.
  assert (∀ title fields,
            (title, JObject fields) ∈
              [("Wikipedia:Administrators list",
                JObject [("enabled", JBool true); ("group", JString "sysop");
                         ("add", JBool true)])] → is_dict fields) as Hd.
  { intros title fields Hin. apply list_elem_of_singleton in Hin. injection Hin as _ ->.
    unfold is_dict. cbn. repeat (apply NoDup_cons; split; [set_solver|]). apply NoDup_nil_2. }
  split; [exact Hd|]. split; [reflexivity|].
  apply (validate_config_accepts Samples.mass_message _ Hd). reflexivity.
Defined.

(** C7, the claim as stated fails: the entry has the required keys, no
    unrecognised key, and its group is a set of two group names, which
    the claim has accepted; the code accepts a group only when it is a
    string and rejects this configuration. *)
Lemma group_list_rejected :
  let config :=
    JObject [("Wikipedia:Administrators list",
              JObject [("enabled", JBool true);
                       ("group", JArray [JString "sysop"; JString "bureaucrat"])])] in
  Spec.config_ok config = true
  ∧ validate_config Samples.mass_message config = Return false
  ∧ validate_config Samples.mass_message config ≠ Return true.
Proof. cbn zeta. split_and!; [reflexivity | reflexivity | discriminate]. Qed.

(** ** The code against the interleaving reference *)

(** *** The rename substitution on a talk page *)

Lemma strip_prefix_self (w : bool) (p rest : string) :
  strip_prefix w p (p +:+ rest)
  = Some (match p with EmptyString => w | _ => ends_in_word p end, rest).
Proof.
  revert w. induction p as [|a p IH]; intros w; [done|].
  change (String a p +:+ rest) with (String a (p +:+ rest)). cbn [strip_prefix].
  rewrite Ascii.eqb_refl, IH. by destruct p.
Qed.

Lemma sub_scan_skip (pat repl s : string) :
  sub_scan pat repl (String.length s) s = EmptyString.
Proof. induction s as [|a s IH]; [done|]. exact IH. Qed.

Lemma string_app_empty_r (s : string) : s +:+ EmptyString = s.
Proof.
  induction s as [|a s IH]; [done|].
  change (String a s +:+ EmptyString) with (String a (s +:+ EmptyString)). by f_equal.
Qed.

Lemma matches_at_name (old : User) :
  ends_in_word old = true → matches_at (String ":" old) (String ":" old) = true.
Proof.
  intros Hw. unfold matches_at.
  rewrite <- (string_app_empty_r (String ":" old)) at 2.
  rewrite strip_prefix_self.
  assert (ends_in_word (String ":" old) = true) as -> by (destruct old; [done | exact Hw]).
  reflexivity.
Qed.

Lemma rename_title_user_talk_page (old new : User) :
  ends_in_word old = true →
  rename_title old new (user_talk_page old) = user_talk_page new.
Proof.
  intros Hw. unfold rename_title, user_talk_page.
  change ("User talk:" +:+ old)
    with (String "U" (String "s" (String "e" (String "r" (String " " (String "t"
           (String "a" (String "l" (String "k" (String ":" old)))))))))).
  change (":" +:+ old) with (String ":" old).
  do 9 (cbn [sub_scan]; unfold matches_at at 1; cbn [strip_prefix Ascii.eqb Bool.eqb]).
  cbn [sub_scan]. rewrite matches_at_name by done.
  change (Nat.pred (String.length (String ":" old))) with (String.length old).
  rewrite sub_scan_skip, string_app_empty_r. reflexivity.
Qed.

(** *** The rename loop, seen on users *)

Lemma foldl_rename_step (renames : list rename) (u : User) (p : Page) (n : nat) :
  (foldl rename_step (u, p, n) renames).1.1 = renamed_user renames u
  ∧ (foldl rename_step (u, p, n) renames).2 = (n + rename_count renames u)%nat.
Proof.
  revert u p n. induction renames as [|r renames IH]; intros u p n.
  - cbn. split; [done|lia].
  - cbn [foldl renamed_user rename_count]. unfold rename_step at 2 4, rename_user.
    destruct (decide (u = olduser r)) as [Heq|Hne].
    + destruct (IH (newuser r) (rename_title u (newuser r) p) (S n)) as [-> ->].
      split; [done|lia].
    + destruct (IH u p n) as [-> ->]. split; [done|lia].
Qed.

Lemma foldl_rename_step_talk (renames : list rename) (u : User) (n : nat) :
  Forall (λ r, ends_in_word (olduser r) = true) renames →
  (foldl rename_step (u, user_talk_page u, n) renames).1.2
  = user_talk_page (renamed_user renames u).
Proof.
  revert u n. induction renames as [|r renames IH]; intros u n Hw; [done|].
  apply Forall_cons in Hw as [Hr Hw].
  cbn [foldl renamed_user]. unfold rename_step at 2, rename_user.
  destruct (decide (u = olduser r)) as [->|Hne].
  - rewrite rename_title_user_talk_page by done. by apply IH.
  - by apply IH.
Qed.

Lemma final_user_renamed (renames : list rename) (t : Page) :
  final_user renames t = renamed_user renames (target_user t).
Proof. unfold final_user, handle_renames. apply foldl_rename_step. Qed.

Lemma rename_hits_count (renames : list rename) (t : Page) :
  rename_hits renames t = rename_count renames (target_user t).
Proof. unfold rename_hits, handle_renames. apply foldl_rename_step. Qed.

Lemma final_page_talk (renames : list rename) (t : Page) :
  Forall (λ r, ends_in_word (olduser r) = true) renames →
  t = user_talk_page (target_user t) →
  final_page renames t = user_talk_page (final_user renames t).
Proof.
  intros Hw Ht. rewrite final_user_renamed. unfold final_page, handle_renames.
  rewrite Ht at 2. by apply foldl_rename_step_talk.
Qed.

(** *** Dictionaries of talk pages *)

Lemma talk_map_cons (u : User) (us : list User) :
  talk_map (u :: us) = <[u := user_talk_page u]> (talk_map us).
Proof. reflexivity. Qed.

Lemma talk_map_lookup (us : list User) (u : User) (q : Page) :
  talk_map us !! u = Some q ↔ u ∈ us ∧ q = user_talk_page u.
Proof.
  induction us as [|u' us IH].
  - unfold talk_map. cbn. rewrite lookup_empty, elem_of_nil. naive_solver.
  - rewrite talk_map_cons, lookup_insert, elem_of_cons. case_decide as Hu.
    + subst u'. split; [intros [= <-]; auto | intros [_ ->]; done].
    + rewrite IH. split; [intros [? ?]; auto | intros [[?|?] ?]; [congruence|done]].
Qed.

Lemma talk_map_lookup_None (us : list User) (u : User) :
  talk_map us !! u = None ↔ u ∉ us.
Proof.
  destruct (talk_map us !! u) as [q|] eqn:Hq.
  - apply talk_map_lookup in Hq as [? _]. split; [done|tauto].
  - split; [|done]. intros _ Hin.
    assert (talk_map us !! u = Some (user_talk_page u)) as Hs by (by apply talk_map_lookup).
    congruence.
Qed.

Lemma talk_map_eq (m : gmap User Page) (us : list User) :
  (∀ u q, m !! u = Some q → u ∈ us ∧ q = user_talk_page u) →
  (∀ u, u ∈ us → is_Some (m !! u)) →
  m = talk_map us.
Proof.
  intros Hm Hus. apply map_eq. intros u.
  destruct (m !! u) as [q|] eqn:Hq.
  - symmetry. apply talk_map_lookup. by apply Hm.
  - symmetry. apply talk_map_lookup_None. intros Hin.
    destruct (Hus u Hin) as [q' Hq']. congruence.
Qed.

Lemma elem_of_current_users (tgts : list Page) (u : User) :
  u ∈ current_users tgts ↔ ∃ t, t ∈ tgts ∧ is_user_ns t = true ∧ target_user t = u.
Proof.
  unfold current_users. rewrite list_elem_of_fmap. split.
  - intros (t & -> & [? ?]%list_elem_of_filter). eauto.
  - intros (t & ? & ? & <-). exists t. split; [done|]. by apply list_elem_of_filter.
Qed.

Lemma sum_list_with_fmap {A B} (f : A → nat) (h : B → nat) (g : A → B) (l : list A) :
  (∀ x, f x = h (g x)) → sum_list_with f l = sum_list_with h (g <$> l).
Proof. intros Hf. induction l as [|x l IH]; [done|]. cbn. by rewrite Hf, IH. Qed.

(** *** The first loop on a list of talk pages *)

Section SeedTalk.
Context (groups : User → gset string).

Lemma seed_talk_map (cfg : page_config) (renames : list rename) (tgts : list Page) :
  truthy (required cfg) = false →
  (∀ t, t ∈ tgts → is_user_ns t = true → t = user_talk_page (target_user t)) →
  Forall (λ r, ends_in_word (olduser r) = true) renames →
  let st := seed groups cfg renames tgts in
  page_dict st = talk_map (renamed_user renames <$> current_users tgts)
  ∧ (∀ p, p ∈ nonusers st ↔ p ∈ tgts ∧ is_user_ns p = false)
  ∧ added_count st = 0%nat ∧ removed_count st = 0%nat
  ∧ renamed_count st = sum_list_with (rename_count renames) (current_users tgts).
Proof.
  intros Hreq Htalk Hw. cbn zeta.
  destruct (seed_seeded groups cfg renames tgts) as [Ha Hr Hm Hn Hd Hk].
  assert (∀ t, evicted groups cfg renames t = false) as Hev.
  { intros t. unfold evicted. by rewrite Hreq. }
  split_and!; [|done|done| |].
  - apply talk_map_eq.
    + intros u q Hq. apply Hd in Hq as (t & Ht & Hu & _ & <- & <-). split.
      * apply list_elem_of_fmap. exists (target_user t).
        split; [apply final_user_renamed|]. apply elem_of_current_users. eauto.
      * apply final_page_talk; auto.
    + intros u (u0 & -> & (t & Ht & Hu & <-)%elem_of_current_users)%list_elem_of_fmap.
      rewrite <- final_user_renamed. by apply Hk.
  - rewrite Hm, filter_none; [done|]. intros t _. by rewrite Hev, andb_false_r.
  - rewrite Hr. apply sum_list_with_fmap. intros t. apply rename_hits_count.
Qed.
End SeedTalk.

(** *** One rename on a list of distinct users *)

Lemma sum_list_with_cons {A} (f : A → nat) (x : A) (l : list A) :
  sum_list_with f (x :: l) = (f x + sum_list_with f l)%nat.
Proof. reflexivity. Qed.

Lemma rename_user_elem (r : rename) (us : list User) (x : User) :
  x ∈ rename_user r <$> us
  ↔ (x = newuser r ∧ olduser r ∈ us) ∨ (x ≠ olduser r ∧ x ∈ us).
Proof.
  rewrite list_elem_of_fmap. unfold rename_user. split.
  - intros (u & -> & Hu). case_decide; subst; auto.
  - intros [[-> Ho]|[Hx Hin]].
    + exists (olduser r). by rewrite decide_True.
    + exists x. by rewrite decide_False.
Qed.

Lemma rename_user_absent (r : rename) (us : list User) :
  olduser r ∉ us → rename_user r <$> us = us.
Proof.
  intros Ho. induction us as [|u us IH]; [done|].
  apply not_elem_of_cons in Ho as [Hne Ho]. cbn. rewrite IH by done.
  unfold rename_user. by rewrite decide_False.
Qed.

Lemma rename_user_NoDup (r : rename) (us : list User) :
  NoDup us → newuser r ∉ us → NoDup (rename_user r <$> us).
Proof.
  intros Hnd Hn. apply NoDup_fmap_2_strong; [|done].
  intros x y Hx Hy. unfold rename_user. repeat case_decide; congruence.
Qed.

Lemma count_old_user (o : User) (us : list User) :
  NoDup us →
  sum_list_with (λ u, if decide (u = o) then 1 else 0)%nat us
  = if decide (o ∈ us) then 1%nat else 0%nat.
Proof.
  induction 1 as [|u us Hu Hnd IH]; [done|]. cbn. rewrite IH.
  destruct (decide (u = o)) as [->|Hne].
  - rewrite decide_False by done. rewrite decide_True by (by left). done.
  - destruct (decide (o ∈ us)) as [Hin|Hout].
    + rewrite decide_True by (by right). done.
    + rewrite decide_False; [done|]. intros [?|?]%elem_of_cons; congruence.
Qed.

Lemma rename_count_cons (r : rename) (renames : list rename) (us : list User) :
  sum_list_with (rename_count (r :: renames)) us
  = (sum_list_with (λ u, if decide (u = olduser r) then 1 else 0) us
     + sum_list_with (rename_count renames) (rename_user r <$> us))%nat.
Proof.
  induction us as [|u us IH]; [done|].
  rewrite fmap_cons, !sum_list_with_cons, IH. cbn [rename_count]. lia.
Qed.

Lemma talk_map_rename (r : rename) (us : list User) :
  olduser r ∈ us → newuser r ∉ us →
  <[newuser r := user_talk_page (newuser r)]> (delete (olduser r) (talk_map us))
  = talk_map (rename_user r <$> us).
Proof.
  intros Ho Hn. apply talk_map_eq.
  - intros u q. rewrite lookup_insert, rename_user_elem. case_decide as Hu.
    + intros [= <-]. subst u. auto.
    + rewrite lookup_delete. case_decide as Hu'; [done|].
      intros [? ->]%talk_map_lookup. auto.
  - intros u Hu. apply rename_user_elem in Hu as [[-> _]|[Hne Hin]].
    + rewrite lookup_insert_eq. by eexists.
    + rewrite lookup_insert_ne by congruence. rewrite lookup_delete_ne by done.
      exists (user_talk_page u). by apply talk_map_lookup.
Qed.

(** *** The reference on separated event sequences *)

Lemma merge_events_separated (rs : list rename) (cs : list group_change) :
  (∀ r c, r ∈ rs → c ∈ cs → rename_timestamp r <= change_timestamp c) →
  Spec.merge_events rs cs = ((Spec.ERename <$> rs) ++ (Spec.EChange <$> cs))%list.
Proof.
  induction rs as [|r rs IH]; intros Hle.
  - by destruct cs.
  - destruct cs as [|c cs].
    + cbn. by rewrite app_nil_r.
    + cbn [Spec.merge_events]. rewrite bool_decide_eq_true_2 by (apply Hle; by left).
      rewrite fmap_cons. cbn [app]. f_equal. apply IH.
      intros r' c' Hr' Hc'. apply Hle; [by right|done].
Qed.

Lemma seed_entries_spec (tgts : list Page) :
  let mo := Spec.seed_entries tgts in
  (∀ u q, mo.1 !! u = Some q → q ∈ tgts ∧ is_user_ns q = true ∧ target_user q = u)
  ∧ (∀ t, t ∈ tgts → is_user_ns t = true → is_Some (mo.1 !! target_user t))
  ∧ (∀ p, p ∈ mo.2 ↔ p ∈ tgts ∧ is_user_ns p = false).
Proof.
  cbn zeta. unfold Spec.seed_entries. induction tgts as [|t tgts IH] using rev_ind.
  - cbn. split_and!.
    + intros u q. by rewrite lookup_empty.
    + intros t Ht. by apply elem_of_nil in Ht.
    + intros p. rewrite elem_of_nil. set_solver.
  - rewrite foldl_snoc. destruct IH as (Hm & Hk & Ho).
    destruct (foldl Spec.seed_entry (∅, ∅) tgts) as [m o]. cbn [fst snd] in *.
    unfold Spec.seed_entry. cbn [fst snd]. destruct (is_user_ns t) eqn:Ht; cbn [fst snd].
    + split_and!.
      * intros u q. rewrite lookup_insert, elem_of_app, list_elem_of_singleton.
        case_decide as Hu; [intros [= <-]; auto|]. intros Hq. apply Hm in Hq. tauto.
      * intros t' [Hin | ->%list_elem_of_singleton]%elem_of_app Hu.
        -- rewrite lookup_insert. case_decide; [by eexists|by apply Hk].
        -- rewrite lookup_insert_eq. by eexists.
      * intros p. rewrite Ho, elem_of_app, list_elem_of_singleton.
        split; [tauto|]. intros [[?| ->] ?]; [done|congruence].
    + split_and!.
      * intros u q Hq. apply Hm in Hq. rewrite elem_of_app. tauto.
      * intros t' [Hin | ->%list_elem_of_singleton]%elem_of_app Hu; [by apply Hk|congruence].
      * intros p. rewrite elem_of_union, elem_of_singleton, Ho, elem_of_app,
          list_elem_of_singleton.
        split; [intros [->|[? ?]]; auto | intros [[?| ->] ?]; auto].
Qed.

Lemma seed_entries_talk (tgts : list Page) :
  (∀ t, t ∈ tgts → is_user_ns t = true → t = user_talk_page (target_user t)) →
  (Spec.seed_entries tgts).1 = talk_map (current_users tgts).
Proof.
  intros Htalk. destruct (seed_entries_spec tgts) as (Hm & Hk & _).
  apply talk_map_eq.
  - intros u q Hq. apply Hm in Hq as (Hin & Hu & <-). split.
    + apply elem_of_current_users. eauto.
    + by apply Htalk.
  - intros u (t & Hin & Hu & <-)%elem_of_current_users. by apply Hk.
Qed.

Lemma current_users_NoDup (tgts : list Page) :
  NoDup tgts →
  (∀ t, t ∈ tgts → is_user_ns t = true → t = user_talk_page (target_user t)) →
  NoDup (current_users tgts).
Proof.
  intros Hnd Htalk. unfold current_users. apply NoDup_fmap_2_strong.
  - intros x y [Hx Hxin]%list_elem_of_filter [Hy Hyin]%list_elem_of_filter Heq.
    rewrite (Htalk x), (Htalk y) by done. by rewrite Heq.
  - by apply NoDup_filter.
Qed.

Section RefFacts.
Context (groups : User → gset string).
Context (policy : Spec.ListPolicy).

(** The renames of the reference, on a working map of talk pages whose
    users are distinct: [D] holds the names that earlier renames made
    stale. *)
Lemma apply_renames_talk (rs : list rename) :
  ∀ (us : list User) (w : Spec.work) (D : list User),
    NoDup us →
    Spec.w_map w = talk_map us →
    (∀ x, x ∉ D → Spec.alias w x = x) →
    NoDup (olduser <$> rs) →
    (∀ r, r ∈ rs → olduser r ∉ D) →
    NoDup (newuser <$> rs) →
    (∀ r, r ∈ rs → newuser r ∉ us) →
    let w' := foldl (Spec.apply_event groups policy) w (Spec.ERename <$> rs) in
    Spec.w_map w' = talk_map (renamed_user rs <$> us)
    ∧ Spec.w_renamed w' = (Spec.w_renamed w + sum_list_with (rename_count rs) us)%nat
    ∧ Spec.w_added w' = Spec.w_added w
    ∧ Spec.w_removed w' = Spec.w_removed w
    ∧ (∀ x, x ∉ D → x ∉ olduser <$> rs → Spec.alias w' x = x).
Proof.
  induction rs as [|r rs IH]; intros us w D Hnd Hmap Hal Holds HoD Hnews Hnus; cbn zeta.
  - change (foldl (Spec.apply_event groups policy) w (Spec.ERename <$> [])) with w.
    assert (renamed_user [] <$> us = us) as ->.
    { clear. induction us as [|u us IH]; [done|]. by rewrite fmap_cons, IH. }
    assert (sum_list_with (rename_count []) us = 0%nat) as ->
      by (by apply sum_list_with_zero).
    split_and!; [done|lia|done|done|auto].
  - rewrite fmap_cons. cbn [foldl Spec.apply_event].
    apply NoDup_cons in Holds as [Ho Holds]. apply NoDup_cons in Hnews as [Hn Hnews].
    assert (Spec.alias w (olduser r) = olduser r) as Ha
      by (apply Hal, HoD; by left).
    assert (renamed_user (r :: rs) <$> us = renamed_user rs <$> (rename_user r <$> us)) as ->.
    { rewrite <- list_fmap_compose. done. }
    rewrite rename_count_cons, count_old_user by done.
    unfold Spec.apply_rename. rewrite Ha, Hmap.
    destruct (decide (olduser r ∈ us)) as [Hin|Hout].
    + assert (talk_map us !! olduser r = Some (user_talk_page (olduser r))) as ->
        by (by apply talk_map_lookup).
      destruct (IH (rename_user r <$> us)
                  {| Spec.w_map :=
                       <[newuser r := user_talk_page (newuser r)]>
                         (delete (olduser r) (talk_map us));
                     Spec.w_added := Spec.w_added w; Spec.w_removed := Spec.w_removed w;
                     Spec.w_renamed := S (Spec.w_renamed w);
                     Spec.alias := λ u, if decide (Spec.alias w u = olduser r)
                                        then newuser r else Spec.alias w u |}
                  (olduser r :: D)) as (Hm' & Hr' & Ha' & Hd' & Hal').
      * apply rename_user_NoDup; [done|]. apply Hnus. by left.
      * cbn [Spec.w_map]. apply talk_map_rename; [done|]. apply Hnus. by left.
      * cbn [Spec.alias]. intros x [Hne HxD]%not_elem_of_cons.
        rewrite decide_False; rewrite Hal by done; done.
      * exact Holds.
      * intros r' Hr' [Heq|HD]%elem_of_cons.
        -- apply Ho. rewrite <- Heq. apply list_elem_of_fmap. by exists r'.
        -- eapply HoD; [|exact HD]. by right.
      * exact Hnews.
      * intros r' Hr' [[Heq _]|[_ Hin']]%rename_user_elem.
        -- apply Hn. rewrite <- Heq. apply list_elem_of_fmap. by exists r'.
        -- eapply Hnus; [|exact Hin']. by right.
      * rewrite Hm', Hr', Ha', Hd'. cbn [Spec.w_renamed Spec.w_added Spec.w_removed].
        split_and!; [done|lia|done|done|].
        intros x HxD Hx. apply not_elem_of_cons in Hx as [Hne Hx].
        apply Hal'; [|done]. intros [?|?]%elem_of_cons; done.
    + assert (talk_map us !! olduser r = None) as -> by (by apply talk_map_lookup_None).
      rewrite rename_user_absent by done.
      destruct (IH us w (olduser r :: D)) as (Hm' & Hr' & Ha' & Hd' & Hal').
      * done.
      * done.
      * intros x Hx. apply Hal. intros ?. apply Hx. by right.
      * exact Holds.
      * intros r' Hr' [Heq|HD]%elem_of_cons.
        -- apply Ho. rewrite <- Heq. apply list_elem_of_fmap. by exists r'.
        -- eapply HoD; [|exact HD]. by right.
      * exact Hnews.
      * intros r' Hr'. apply Hnus. by right.
      * rewrite Hm', Hr', Ha', Hd'. split_and!; [done|lia|done|done|].
        intros x HxD Hx. apply not_elem_of_cons in Hx as [Hne Hx].
        apply Hal'; [|done]. intros [?|?]%elem_of_cons; done.
Qed.
End RefFacts.

(** *** The group changes of the code and of the reference *)

Lemma intersects_comm (X Y : gset string) : intersects X Y = bool_decide (Y ∩ X ≠ ∅).
Proof. unfold intersects. apply bool_decide_ext. by rewrite (comm_L (∩) X Y). Qed.

Section Simulation.
Context (groups : User → gset string).

Lemma apply_change_agrees (cfg : page_config) (st : bot_state) (w : Spec.work)
    (c : group_change) :
  Spec.alias w (user c) = user c →
  Spec.agrees st w →
  Spec.agrees (handle_change groups cfg st c)
              (Spec.apply_change groups (Spec.policy_of cfg) w c)
  ∧ Spec.alias (Spec.apply_change groups (Spec.policy_of cfg) w c) = Spec.alias w.
Proof.
  intros Hal (Hm & Ha & Hr & Hn).
  unfold handle_change, Spec.apply_change, Spec.agrees.
  cbn [Spec.policy_of Spec.p_add Spec.p_remove Spec.groupFilter].
  rewrite Hal, <- !intersects_comm, <- Hm, toggleTalkPage_user_page.
  destruct (truthy (add cfg) && intersects (group cfg) (added c)
            && negb (bool_decide ("bot" ∈ groups (user c)))
            && negb (bool_decide (is_Some (page_dict st !! user c)))) eqn:Hadd;
    proj_state; cbn [Spec.w_map Spec.w_added Spec.w_removed Spec.w_renamed Spec.alias];
    destruct (truthy (remove cfg) && intersects (group cfg) (removed c)) eqn:Hrem;
    cbn [andb].
  - rewrite lookup_insert_eq. rewrite bool_decide_eq_true_2 by (by eexists).
    proj_state. cbn. rewrite Ha, Hr, Hn. done.
  - proj_state. cbn. rewrite Ha, Hr, Hn. done.
  - rewrite <- Hm. destruct (page_dict st !! user c) as [q|] eqn:Hq.
    + rewrite bool_decide_eq_true_2 by (by eexists). proj_state. cbn.
      rewrite Ha, Hr, Hn. done.
    + rewrite bool_decide_eq_false_2 by (by intros [? ?]). done.
  - done.
Qed.

Lemma apply_changes_agree (cfg : page_config) (changes : list group_change) :
  ∀ (st : bot_state) (w : Spec.work),
    (∀ c, c ∈ changes → Spec.alias w (user c) = user c) →
    Spec.agrees st w →
    Spec.agrees (foldl (handle_change groups cfg) st changes)
                (foldl (Spec.apply_event groups (Spec.policy_of cfg)) w
                       (Spec.EChange <$> changes)).
Proof.
  induction changes as [|c changes IH]; intros st w Hal Hag; [done|].
  rewrite fmap_cons. cbn [foldl Spec.apply_event].
  destruct (apply_change_agrees cfg st w c) as [Hag' Hal']; [apply Hal; by left|done|].
  apply IH; [|done]. intros c' Hc'. rewrite Hal'. apply Hal. by right.
Qed.

End Simulation.



(** * Further properties of the script *)

(** ** The rename substitution and the namespaces *)

Lemma span_until_sub_scan (old new : User) (s : string) :
  (span_until ":" (sub_scan (String ":" old) (String ":" new) 0 s)).1
  = (span_until ":" s).1
  ∧ ((span_until ":" (sub_scan (String ":" old) (String ":" new) 0 s)).2 = EmptyString
     ↔ (span_until ":" s).2 = EmptyString).
Proof.
  induction s as [|a s IH]; [done|].
  cbn [sub_scan]. destruct (Ascii.eqb a ":") eqn:Ha.
  - apply Ascii.eqb_eq in Ha as ->.
    destruct (matches_at (String ":" old) (String ":" s)).
    + change (String ":" new +:+ ?x) with (String ":" (new +:+ x)). by cbn.
    + by cbn.
  - assert (matches_at (String ":" old) (String a s) = false) as ->.
    { unfold matches_at. cbn [strip_prefix]. rewrite Ascii.eqb_sym, Ha. done. }
    cbn [span_until]. rewrite Ha. destruct IH as [IH1 IH2].
    destruct (span_until ":" (sub_scan _ _ 0 s)) as [p r].
    destruct (span_until ":" s) as [p' r']. cbn in *. by subst.
Qed.

Lemma rename_title_keeps_namespace (old new : User) (title : Page) :
  namespace_id (rename_title old new title) = namespace_id title
  ∧ is_user_ns (rename_title old new title) = is_user_ns title.
Proof.
  assert (namespace_id (rename_title old new title) = namespace_id title) as Hns.
  { unfold namespace_id, split_ns, rename_title.
    change (":" +:+ old) with (String ":" old). change (":" +:+ new) with (String ":" new).
    destruct (span_until_sub_scan old new title) as [H1 H2].
    destruct (span_until ":" (sub_scan _ _ 0 title)) as [p r].
    destruct (span_until ":" title) as [p' r']. cbn in *. subst p'.
    destruct r, r'; try done.
    - by apply proj1 in H2; specialize (H2 eq_refl).
    - by apply proj2 in H2; specialize (H2 eq_refl). }
  split; [done|]. unfold is_user_ns. by rewrite Hns.
Qed.

(** X1. The rename substitution leaves the namespace of a title as it
    is: a renamed user page is still a user page. *)
Theorem rename_title_namespace (old new : User) (title : Page) :
  namespace_id (rename_title old new title) = namespace_id title
  ∧ is_user_ns (rename_title old new title) = is_user_ns title.
Proof. exact (rename_title_keeps_namespace old new title). Qed.

(** ** What the two loops keep *)

Lemma foldl_rename_step_user_ns (renames : list rename) (u : User) (p : Page) (n : nat) :
  is_user_ns (foldl rename_step (u, p, n) renames).1.2 = is_user_ns p.
Proof.
  revert u p n. induction renames as [|r renames IH]; intros u p n; [done|].
  cbn [foldl]. unfold rename_step at 2. case_decide; rewrite IH; [|done].
  apply rename_title_keeps_namespace.
Qed.

Section Invariants.
Context (groups : User → gset string).

Lemma seed_user_pages_only cfg renames tgts :
  user_pages_only (seed groups cfg renames tgts).
Proof.
  intros u q Hq.
  destruct (seed_seeded groups cfg renames tgts) as [_ _ _ _ Hd _].
  apply Hd in Hq as (t & _ & Ht & _ & _ & <-).
  unfold final_page, handle_renames. by rewrite foldl_rename_step_user_ns.
Qed.

Lemma handle_change_user_pages_only cfg st c :
  user_pages_only st → user_pages_only (handle_change groups cfg st c).
Proof.
  intros Hst u q. unfold handle_change.
  repeat (case_match; proj_state); intros Hq;
    repeat match goal with
      | H : delete _ _ !! _ = Some _ |- _ => apply lookup_delete_Some in H as [_ H]
      | H : <[_:=_]> _ !! _ = Some _ |- _ =>
          apply lookup_insert_Some in H as [[_ <-]|[_ H]]
      end;
    first [by eapply Hst | apply is_user_ns_user_talk_page].
Qed.

Lemma changes_user_pages_only cfg st changes :
  user_pages_only st → user_pages_only (foldl (handle_change groups cfg) st changes).
Proof.
  revert st. induction changes as [|c changes IH]; intros st Hst; [done|].
  cbn [foldl]. by apply IH, handle_change_user_pages_only.
Qed.

(** X2. Whatever the policy and the events, the pages outside the user
    namespaces pass through: such a page is in the final entries exactly
    when it is a current target.  The pages kept in the dictionary are
    all pages of the user namespaces, so the two parts of the final
    entries never overlap. *)
Theorem nonuser_entries_pass_through (cfg : page_config) (renames : list rename)
    (group_changes : list group_change) (tgts : list Page) :
  let st := reconcile groups cfg renames group_changes tgts in
  (∀ p, is_user_ns p = false → (p ∈ final_entries st ↔ p ∈ tgts))
  ∧ (∀ u q, page_dict st !! u = Some q → is_user_ns q = true)
  ∧ nonusers st ## map_img (page_dict st).
Proof.
  cbn zeta. unfold reconcile.
  pose proof (changes_user_pages_only cfg _ group_changes
                (seed_user_pages_only cfg renames tgts)) as Hup.
  destruct (seed_seeded groups cfg renames tgts) as [_ _ _ Hn _ _].
  split_and!.
  - intros p Hp. unfold final_entries.
    rewrite elem_of_union, changes_nonusers, Hn, elem_of_map_img. split.
    + intros [[? _]|[u Hq]]; [done|]. apply Hup in Hq. congruence.
    + intros Hin. by left.
  - exact Hup.
  - intros p Hp1 Hp2. rewrite changes_nonusers in Hp1. apply Hn in Hp1 as [_ Hp1].
    apply elem_of_map_img in Hp2 as [u Hq]. apply Hup in Hq. congruence.
Qed.

(** X3. An event never adds a user twice and never overwrites an entry:
    when the user named by a group change has an entry, nothing is
    counted as added, and afterwards any user who had an entry has the
    same page or no entry at all. *)
Theorem no_duplicate_add (cfg : page_config) (st : bot_state) (c : group_change) :
  let st' := handle_change groups cfg st c in
  (is_Some (page_dict st !! user c) → added_count st' = added_count st)
  ∧ (∀ u q, page_dict st !! u = Some q →
       page_dict st' !! u = Some q ∨ page_dict st' !! u = None).
Proof.
  cbn zeta. split.
  - intros Hs. unfold handle_change.
    rewrite (bool_decide_eq_true_2 _ Hs), andb_false_r.
    by repeat (case_match; proj_state).
  - intros u q Hq. destruct (decide (user c = u)) as [<-|Hne].
    + unfold handle_change.
      rewrite (bool_decide_eq_true_2 (is_Some (page_dict st !! user c)))
        by (by eexists).
      rewrite andb_false_r. case_match; [|by left].
      rewrite Hq. proj_state. right. apply lookup_delete_eq.
    + left. by rewrite handle_change_frame.
Qed.

(** X4. A user in the bot group is never added: if such a user has no
    entry when the group changes start, the user has none when they
    end. *)
Theorem bot_never_added (cfg : page_config) (group_changes : list group_change)
    (st : bot_state) (u : User) :
  "bot" ∈ groups u →
  page_dict st !! u = None →
  page_dict (foldl (handle_change groups cfg) st group_changes) !! u = None.
Proof.
  intros Hbot. revert st. induction group_changes as [|c cs IH]; intros st Hu; [done|].
  cbn [foldl]. apply IH. destruct (decide (user c = u)) as [Hc|Hne].
  - unfold handle_change. rewrite Hc, (bool_decide_eq_true_2 _ Hbot).
    cbn [negb]. rewrite andb_false_r. cbn [andb]. rewrite Hu. by case_match.
  - by rewrite handle_change_frame.
Qed.
End Invariants.

(** ** Counting *)

Section Counting.
Context (groups : User → gset string).

Lemma handle_change_balance (cfg : page_config) (st : bot_state) (c : group_change) :
  let st' := handle_change groups cfg st c in
  (size (page_dict st') + removed_count st' + added_count st
   = size (page_dict st) + removed_count st + added_count st')%nat
  ∧ (added_count st ≤ added_count st' ≤ S (added_count st))%nat
  ∧ (removed_count st ≤ removed_count st' ≤ S (removed_count st))%nat.
Proof.
  cbn zeta. unfold handle_change.
  destruct (truthy (add cfg) && intersects (group cfg) (added c)
            && negb (bool_decide ("bot" ∈ groups (user c)))
            && negb (bool_decide (is_Some (page_dict st !! user c)))) eqn:Hadd.
  - apply andb_true_iff in Hadd as [_ Hnone]. apply negb_true_iff in Hnone.
    apply bool_decide_eq_false in Hnone.
    assert (page_dict st !! user c = None) as Hn
      by (destruct (page_dict st !! user c); [destruct Hnone; by eexists | done]).
    proj_state. destruct (truthy (remove cfg) && intersects (group cfg) (removed c)).
    + rewrite lookup_insert_eq. proj_state.
      rewrite delete_insert_eq, delete_id by done. lia.
    + proj_state. rewrite map_size_insert_None by done. lia.
  - destruct (truthy (remove cfg) && intersects (group cfg) (removed c)); [|lia].
    destruct (page_dict st !! user c) as [q|] eqn:Hq; [|lia].
    proj_state. rewrite map_size_delete_Some by (by eexists).
    assert (size (page_dict st) ≠ 0%nat)
      by (apply map_size_non_empty_iff; intros Hm; by rewrite Hm, lookup_empty in Hq).
    lia.
Qed.

Lemma seed_size (cfg : page_config) (renames : list rename) (tgts : list Page) :
  let st := seed groups cfg renames tgts in
  (size (page_dict st) + removed_count st
   ≤ length (filter (λ t, is_user_ns t = true) tgts))%nat.
Proof.
  cbn zeta. unfold seed. induction tgts as [|t tgts IH] using rev_ind; [done|].
  rewrite foldl_snoc, filter_app, length_app.
  remember (foldl (treat_target groups cfg renames) initial_state tgts) as st eqn:Hst.
  clear Hst. destruct (is_user_ns t) eqn:Ht.
  - rewrite filter_cons_True by done. cbn [filter list_filter length].
    destruct (evicted groups cfg renames t) eqn:He.
    + rewrite treat_target_evicted by done. proj_state. cbn. lia.
    + rewrite treat_target_kept by done. proj_state. rewrite map_size_insert.
      destruct (page_dict st !! final_user renames t); cbn; lia.
  - rewrite filter_cons_False by congruence. rewrite treat_target_nonuser by done.
    proj_state. cbn. lia.
Qed.

(** X5. The counters account for the dictionary.  Over the group
    changes, the entries that are there at the end and the removals
    counted balance the entries that were there at the start and the
    additions counted; each event counts at most one addition and at most
    one removal, and no rename.  At the start, the entries kept and the
    entries evicted are at most the user entries of the list. *)
Theorem counters_balance (cfg : page_config) (renames : list rename)
    (group_changes : list group_change) (tgts : list Page) :
  let st0 := seed groups cfg renames tgts in
  let st := reconcile groups cfg renames group_changes tgts in
  (size (page_dict st) + removed_count st
   = size (page_dict st0) + removed_count st0 + added_count st)%nat
  ∧ (added_count st ≤ length group_changes)%nat
  ∧ (removed_count st0 ≤ removed_count st ≤ removed_count st0 + length group_changes)%nat
  ∧ renamed_count st = renamed_count st0
  ∧ (size (page_dict st0) + removed_count st0
     ≤ length (filter (λ t, is_user_ns t = true) tgts))%nat.
Proof.
  cbn zeta. unfold reconcile.
  destruct (seed_seeded groups cfg renames tgts) as [Ha _ _ _ _ _].
  pose proof (seed_size cfg renames tgts) as Hsz. cbn zeta in Hsz.
  remember (seed groups cfg renames tgts) as st0 eqn:Hst0. clear Hst0.
  rewrite changes_renamed.
  assert (∀ cs st,
    let st' := foldl (handle_change groups cfg) st cs in
    (size (page_dict st') + removed_count st' + added_count st
     = size (page_dict st) + removed_count st + added_count st')%nat
    ∧ (added_count st ≤ added_count st' ≤ added_count st + length cs)%nat
    ∧ (removed_count st ≤ removed_count st' ≤ removed_count st + length cs)%nat) as Hloop.
  { induction cs as [|c cs IH]; intros st; cbn zeta; [cbn; lia|].
    cbn [foldl length]. specialize (IH (handle_change groups cfg st c)). cbn zeta in IH.
    pose proof (handle_change_balance cfg st c) as Hb. cbn zeta in Hb. lia. }
  specialize (Hloop group_changes st0). cbn zeta in Hloop. lia.
Qed.
End Counting.

(** ** A name that does not end in a word character *)

Lemma strip_prefix_short (w : bool) (p s : string) :
  (String.length s < String.length p)%nat → strip_prefix w p s = None.
Proof.
  revert w s. induction p as [|a p IH]; intros w s Hlen; [cbn in Hlen; lia|].
  destruct s as [|b s]; [done|]. cbn [strip_prefix]. cbn in Hlen.
  destruct (Ascii.eqb a b); [|done]. apply IH. lia.
Qed.

Lemma sub_scan_short (pat repl s : string) :
  (String.length s < String.length pat)%nat → sub_scan pat repl 0 s = s.
Proof.
  induction s as [|a s IH]; intros Hlen; [done|].
  cbn [sub_scan]. unfold matches_at. rewrite strip_prefix_short by done.
  f_equal. apply IH. cbn in Hlen. lia.
Qed.



(** ** Events that do not concern the list *)

Section Inert.
Context (groups : User → gset string).

Lemma handle_renames_absent (renames : list rename) (u : User) (p : Page) :
  (∀ r, r ∈ renames → olduser r ≠ u) → handle_renames renames u p = (u, p, 0%nat).
Proof.
  unfold handle_renames. induction renames as [|r renames IH]; intros Hr; [done|].
  cbn [foldl]. unfold rename_step at 2.
  rewrite decide_False by (intros ->; by eapply Hr; [left|]).
  apply IH. intros r' Hr'. apply Hr. by right.
Qed.

Lemma foldl_ext_in {A B} (f g : A → B → A) (l : list B) (a : A) :
  (∀ a b, b ∈ l → f a b = g a b) → foldl f a l = foldl g a l.
Proof.
  revert a. induction l as [|b l IH]; intros a Hfg; [done|].
  cbn [foldl]. rewrite Hfg by (by left). apply IH. intros; apply Hfg. by right.
Qed.

(** X7. Rename events for users who are not on the list change nothing:
    the run gives the state it gives without any rename event. *)
Theorem unlisted_renames_inert (cfg : page_config) (renames : list rename)
    (group_changes : list group_change) (tgts : list Page) :
  (∀ r t, r ∈ renames → t ∈ tgts → is_user_ns t = true → olduser r ≠ target_user t) →
  reconcile groups cfg renames group_changes tgts
  = reconcile groups cfg [] group_changes tgts.
Proof.
  intros Hr. unfold reconcile, seed. f_equal. apply foldl_ext_in.
  intros st t Ht. unfold treat_target. destruct (is_user_ns t) eqn:Hu; [|done].
  cbn [negb]. rewrite handle_renames_absent; [done|].
  intros r Hin. by apply Hr.
Qed.

Lemma handle_change_add_off cfg st c :
  truthy (add cfg) = false →
  added_count (handle_change groups cfg st c) = added_count st
  ∧ page_dict (handle_change groups cfg st c) ⊆ page_dict st.
Proof.
  intros Ha. unfold handle_change. rewrite Ha. cbn [andb].
  repeat (case_match; proj_state); split; try done. apply delete_subseteq.
Qed.

Lemma handle_change_remove_off cfg st c :
  truthy (remove cfg) = false →
  removed_count (handle_change groups cfg st c) = removed_count st
  ∧ page_dict st ⊆ page_dict (handle_change groups cfg st c).
Proof.
  intros Hr. unfold handle_change. rewrite Hr. cbn [andb].
  destruct (truthy (add cfg) && intersects (group cfg) (added c)
            && negb (bool_decide ("bot" ∈ groups (user c)))
            && negb (bool_decide (is_Some (page_dict st !! user c)))) eqn:Hadd;
    proj_state; split; try done.
  apply andb_true_iff in Hadd as [_ Hnone]. apply negb_true_iff in Hnone.
  apply bool_decide_eq_false in Hnone. apply insert_subseteq.
  destruct (page_dict st !! user c); [destruct Hnone; by eexists | done].
Qed.

(** X8. The switches of the policy bound what the group changes do.
    Without [add] nothing is added: no addition is counted and every
    final entry of the dictionary is an entry left by the first loop.
    Without [remove] no event removes: the removals counted are those of
    the first loop and every entry it left is still there. *)
Theorem switches_off (cfg : page_config) (renames : list rename)
    (group_changes : list group_change) (tgts : list Page) :
  let st0 := seed groups cfg renames tgts in
  let st := reconcile groups cfg renames group_changes tgts in
  (truthy (add cfg) = false →
     added_count st = 0%nat ∧ page_dict st ⊆ page_dict st0)
  ∧ (truthy (remove cfg) = false →
     removed_count st = removed_count st0 ∧ page_dict st0 ⊆ page_dict st).
Proof.
  cbn zeta. unfold reconcile.
  destruct (seed_seeded groups cfg renames tgts) as [Ha _ _ _ _ _].
  remember (seed groups cfg renames tgts) as st0 eqn:Hst0. clear Hst0. split.
  - intros Hoff. rewrite <- Ha. clear Ha. revert st0.
    induction group_changes as [|c cs IH]; intros st0; [done|].
    cbn [foldl]. destruct (IH (handle_change groups cfg st0 c)) as [-> Hsub].
    destruct (handle_change_add_off cfg st0 c Hoff) as [-> Hsub'].
    split; [done|]. by etrans.
  - intros Hoff. clear Ha. revert st0.
    induction group_changes as [|c cs IH]; intros st0; [done|].
    cbn [foldl]. destruct (IH (handle_change groups cfg st0 c)) as [-> Hsub].
    destruct (handle_change_remove_off cfg st0 c Hoff) as [-> Hsub'].
    split; [done|]. by etrans.
Qed.
End Inert.

(** ** The event sequences built by [main] *)

Section SortBy.
Context {A : Type} (key : A → Z).

Lemma insert_by_Permutation (x : A) (l : list A) : insert_by key x l ≡ₚ x :: l.
Proof.
  induction l as [|y l IH]; [done|]. cbn [insert_by]. case_bool_decide; [done|].
  rewrite IH. apply Permutation_swap.
Qed.

Lemma sort_by_Permutation (l : list A) : sort_by key l ≡ₚ l.
Proof.
  induction l as [|x l IH]; [done|]. cbn. by rewrite insert_by_Permutation, IH.
Qed.

Lemma insert_by_sorted (x : A) (l : list A) :
  StronglySorted (λ a b, key a <= key b) l →
  StronglySorted (λ a b, key a <= key b) (insert_by key x l).
Proof.
  induction 1 as [|y l Hl IH Hy]; [by repeat constructor|].
  cbn [insert_by]. case_bool_decide as Hxy.
  - constructor; [by constructor|]. constructor; [done|].
    eapply Forall_impl; [exact Hy|]. intros z Hz. cbn in Hz. lia.
  - constructor; [done|]. rewrite insert_by_Permutation. constructor; [lia|done].
Qed.

Lemma sort_by_sorted (l : list A) : StronglySorted (λ a b, key a <= key b) (sort_by key l).
Proof.
  induction l as [|x l IH]; [constructor|]. by apply insert_by_sorted.
Qed.

Lemma insert_by_stable (k : Z) (x : A) (l : list A) :
  filter (λ a, key a = k) (insert_by key x l) = filter (λ a, key a = k) (x :: l).
Proof.
  induction l as [|y l IH]; [done|]. cbn [insert_by]. case_bool_decide as Hxy; [done|].
  destruct (decide (key y = k)) as [Hy|Hy].
  - rewrite (filter_cons_True _ y) by done. rewrite IH.
    rewrite !(filter_cons_False _ x) by lia. by rewrite filter_cons_True.
  - rewrite (filter_cons_False _ y) by done. rewrite IH.
    destruct (decide (key x = k)).
    + rewrite !(filter_cons_True _ x) by done. by rewrite filter_cons_False.
    + rewrite !(filter_cons_False _ x) by done. by rewrite filter_cons_False.
Qed.

Lemma sort_by_stable (k : Z) (l : list A) :
  filter (λ a, key a = k) (sort_by key l) = filter (λ a, key a = k) l.
Proof.
  induction l as [|x l IH]; [done|].
  change (sort_by key (x :: l)) with (insert_by key x (sort_by key l)).
  rewrite insert_by_stable. destruct (decide (key x = k)).
  - rewrite !(filter_cons_True _ x) by done. by rewrite IH.
  - rewrite !(filter_cons_False _ x) by done. by rewrite IH.
Qed.

Lemma key_inj_NoDup (l : list A) (x1 x2 : A) :
  NoDup (key <$> l) → x1 ∈ l → x2 ∈ l → key x1 = key x2 → x1 = x2.
Proof.
  induction l as [|y l IH]; intros Hnd Hx1 Hx2 Hk; [by apply elem_of_nil in Hx1|].
  rewrite fmap_cons in Hnd. apply NoDup_cons in Hnd as [Hy Hnd].
  apply elem_of_cons in Hx1 as [->|Hx1]; apply elem_of_cons in Hx2 as [->|Hx2].
  - done.
  - destruct Hy. rewrite Hk. by apply list_elem_of_fmap_2.
  - destruct Hy. rewrite <- Hk. by apply list_elem_of_fmap_2.
  - by apply IH.
Qed.

Lemma sort_by_order_free (l1 l2 : list A) :
  l1 ≡ₚ l2 → NoDup (key <$> l1) → sort_by key l1 = sort_by key l2.
Proof.
  intros Hp Hnd. apply (StronglySorted_unique_strong (λ a b, key a <= key b)).
  - intros x1 x2 Hx1 Hx2 H12 H21.
    rewrite sort_by_Permutation in Hx1. rewrite sort_by_Permutation, <- Hp in Hx2.
    apply (key_inj_NoDup l1); [done..|lia].
  - apply sort_by_sorted.
  - apply sort_by_sorted.
  - by rewrite !sort_by_Permutation.
Qed.
End SortBy.

Lemma group_change_of_timestamp (suffix : string) (e : rights_event) (c : group_change) :
  group_change_of suffix e = Some c → change_timestamp c = ev_timestamp e.
Proof.
  unfold group_change_of. destruct (ev_groups e) as [[newg oldg]|]; [|done].
  destruct (ev_title e); [|done]. by intros [= <-].
Qed.

Lemma group_changes_timestamps_NoDup (suffix : string) (events : list rights_event) :
  NoDup (ev_timestamp <$> events) →
  NoDup (change_timestamp <$> omap (group_change_of suffix) events).
Proof.
  induction events as [|e events IH]; intros Hnd; [constructor|].
  rewrite fmap_cons in Hnd. apply NoDup_cons in Hnd as [He Hnd]. cbn [omap list_omap].
  destruct (group_change_of suffix e) as [c|] eqn:Hc; [|by apply IH].
  rewrite fmap_cons. apply NoDup_cons. split; [|by apply IH].
  intros (c' & Heq & Hin)%list_elem_of_fmap.
  apply list_elem_of_omap in Hin as (e' & He' & Hc'). apply He.
  apply group_change_of_timestamp in Hc, Hc'.
  rewrite <- Hc, Heq, Hc'. by apply list_elem_of_fmap_2.
Qed.

(** X9. The two event sequences come out of [main] in ascending order
    of timestamp.  They hold the log entries that could be read, each
    once, and entries of equal timestamps keep the order in which the log
    gave them. *)
Theorem event_sequences_ordered (suffix : string) (rename_events : list rename_event)
    (rights_events : list rights_event) :
  let renames := renames_of rename_events in
  let changes := group_changes_of suffix rights_events in
  StronglySorted (λ a b, rename_timestamp a <= rename_timestamp b) renames
  ∧ renames ≡ₚ omap rename_of rename_events
  ∧ (∀ t, filter (λ r, rename_timestamp r = t) renames
          = filter (λ r, rename_timestamp r = t) (omap rename_of rename_events))
  ∧ StronglySorted (λ a b, change_timestamp a <= change_timestamp b) changes
  ∧ changes ≡ₚ omap (group_change_of suffix) rights_events
  ∧ (∀ t, filter (λ c, change_timestamp c = t) changes
          = filter (λ c, change_timestamp c = t)
                   (omap (group_change_of suffix) rights_events)).
Proof.
  cbn zeta. unfold renames_of, group_changes_of. split_and!.
  - apply sort_by_sorted.
  - apply sort_by_Permutation.
  - intros t. apply sort_by_stable.
  - apply sort_by_sorted.
  - apply sort_by_Permutation.
  - intros t. apply sort_by_stable.
Qed.

(** X10. The rights events of the second wiki reach the loop out of a
    set, in no fixed order.  When the timestamps of the events are
    pairwise distinct this order does not matter: two orders of the same
    events give the same sequence of group changes. *)
Theorem group_changes_order_free (suffix : string)
    (rights_events rights_events' : list rights_event) :
  rights_events ≡ₚ rights_events' →
  NoDup (ev_timestamp <$> rights_events) →
  group_changes_of suffix rights_events = group_changes_of suffix rights_events'.
Proof.
  intros Hp Hnd. unfold group_changes_of. apply sort_by_order_free.
  - by rewrite Hp.
  - by apply group_changes_timestamps_NoDup.
Qed.

Lemma group_changes_order_free_witness :
  let e1 := RightsEvent (Some (["sysop"], [])) (Some "User:Bob") 2 in
  let e2 := RightsEvent (Some ([], ["sysop"])) (Some "User:Alice@enwiki") 1 in
  group_changes_of "@enwiki" [e1; e2] = group_changes_of "@enwiki" [e2; e1]
  ∧ user <$> group_changes_of "@enwiki" [e1; e2] = ["Alice"; "Bob"].
Proof.
  cbn zeta. split; [|reflexivity].
  apply group_changes_order_free.
  - apply Permutation_swap.
  - cbn. repeat (apply NoDup_cons; split; [set_solver|]). apply NoDup_nil_2.
Defined.

Lemma intersects_empty (X : gset string) : intersects X ∅ = false.
Proof.
  unfold intersects. apply bool_decide_eq_false_2. intros H. apply H. set_solver.
Qed.

Lemma intersects_singleton (g : string) (X : gset string) :
  intersects {[g]} X = true ↔ g ∈ X.
Proof.
  unfold intersects. rewrite bool_decide_eq_true. split.
  - intros Hne. destruct (decide (g ∈ X)) as [|Hg]; [done|]. destruct Hne. set_solver.
  - intros Hg Hempty. assert (g ∈ ({[g]} ∩ X : gset string)) as Hin by set_solver.
    rewrite Hempty in Hin. set_solver.
Qed.

Section Normalised.
Context (groups : User → gset string).

(** X11. A rights entry whose old and new groups are the same set (a
    change of expiry, say) gives empty sets of added and removed groups,
    and the group change made from it leaves the state of any list as it
    is. *)
Theorem unchanged_groups_inert (suffix : string) (newgroups oldgroups : list string)
    (title : string) (timestamp : Z) (c : group_change) :
  (list_to_set newgroups : gset string) = list_to_set oldgroups →
  group_change_of suffix (RightsEvent (Some (newgroups, oldgroups)) (Some title) timestamp)
  = Some c →
  added c = ∅ ∧ removed c = ∅
  ∧ ∀ cfg st, handle_change groups cfg st c = st.
Proof.
  intros Hsame [= <-]. cbn [added removed]. rewrite Hsame.
  assert (list_to_set oldgroups ∖ list_to_set oldgroups = (∅ : gset string)) as ->
    by set_solver.
  split_and!; [done..|]. intros cfg st. unfold handle_change. cbn [added removed].
  rewrite intersects_empty, !andb_false_r. cbn [andb]. done.
Qed.

(** X12. The groups added and the groups removed of a group change
    made from a rights entry are disjoint.  For a list whose filter is
    one group, as [validate_config] leaves it, such an event cannot both
    add and remove: at most one of the two counters moves, by one. *)
Theorem normalised_change_adds_or_removes (suffix : string) (e : rights_event)
    (c : group_change) (cfg : page_config) (g : string) (st : bot_state) :
  group_change_of suffix e = Some c →
  group cfg = {[g]} →
  let st' := handle_change groups cfg st c in
  added c ## removed c
  ∧ (intersects (group cfg) (added c) = true → intersects (group cfg) (removed c) = false)
  ∧ (added_count st' + removed_count st' ≤ S (added_count st + removed_count st))%nat.
Proof.
  intros Hc Hg. cbn zeta.
  assert (added c ## removed c) as Hdisj.
  { unfold group_change_of in Hc. destruct (ev_groups e) as [[newg oldg]|]; [|done].
    destruct (ev_title e); [|done]. injection Hc as <-. cbn [added removed]. set_solver. }
  assert (intersects (group cfg) (added c) = true →
          intersects (group cfg) (removed c) = false) as Hexcl.
  { rewrite Hg. intros Ha%intersects_singleton.
    destruct (intersects {[g]} (removed c)) eqn:Hr; [|done].
    apply intersects_singleton in Hr. set_solver. }
  split_and!; [done..|].
  pose proof (handle_change_balance groups cfg st c) as (_ & Ha & Hr). cbn zeta in Ha, Hr.
  destruct (intersects (group cfg) (added c)) eqn:Hia.
  - specialize (Hexcl eq_refl).
    assert (removed_count (handle_change groups cfg st c) = removed_count st) as ->; [|lia].
    unfold handle_change. rewrite Hexcl, andb_false_r. by case_match.
  - assert (added_count (handle_change groups cfg st c) = added_count st) as ->; [|lia].
    unfold handle_change. rewrite Hia, andb_false_r. cbn [andb].
    by repeat (case_match; proj_state).
Qed.
End Normalised.

Lemma unchanged_groups_inert_witness :
  let c := GroupChange "Alice" ∅ ∅ 5 in
  group_change_of "@enwiki"
    (RightsEvent (Some (["sysop"; "rollbacker"], ["rollbacker"; "sysop"]))
                 (Some "User:Alice") 5) = Some c
  ∧ handle_change Samples.all_sysop Samples.sysop_policy initial_state c = initial_state.
Proof.
  cbn zeta.
  assert (group_change_of "@enwiki"
            (RightsEvent (Some (["sysop"; "rollbacker"], ["rollbacker"; "sysop"]))
                         (Some "User:Alice") 5)
          = Some (GroupChange "Alice" ∅ ∅ 5)) as Hc by reflexivity.
  split; [exact Hc|].
  eapply (unchanged_groups_inert Samples.all_sysop "@enwiki"); [|exact Hc].
  reflexivity.
Defined.

Lemma normalised_change_adds_or_removes_witness :
  let c := GroupChange "Bob" {["sysop"]} {["rollbacker"]} 3 in
  let st' := handle_change Samples.no_groups Samples.sysop_policy initial_state c in
  (added_count st' + removed_count st' ≤ 1)%nat ∧ added c ## removed c.
Proof.
  cbn zeta.
  destruct (normalised_change_adds_or_removes Samples.no_groups "@enwiki"
              (RightsEvent (Some (["sysop"], ["rollbacker"])) (Some "User:Bob") 3)
              (GroupChange "Bob" {["sysop"]} {["rollbacker"]} 3)
              Samples.sysop_policy "sysop" initial_state)
    as (Hd & _ & Hle); [reflexivity | reflexivity |].
  split; [exact Hle | exact Hd].
Defined.

Lemma string_length_app (s1 s2 : string) :
  String.length (s1 +:+ s2) = (String.length s1 + String.length s2)%nat.
Proof.
  induction s1 as [|a s1 IH]; [done|].
  change (String a s1 +:+ s2) with (String a (s1 +:+ s2)). cbn. by rewrite IH.
Qed.

Lemma eqb_longer (a : ascii) (t suffix : string) :
  String.eqb (String a (t +:+ suffix)) suffix = false.
Proof.
  apply String.eqb_neq. intros Heq. apply (f_equal String.length) in Heq.
  cbn in Heq. rewrite string_length_app in Heq. lia.
Qed.

Lemma remove_suffix_app (suffix t : string) : remove_suffix suffix (t +:+ suffix) = t.
Proof.
  induction t as [|a t IH].
  - change (EmptyString +:+ suffix) with suffix.
    destruct suffix; cbn [remove_suffix]; by rewrite String.eqb_refl.
  - change (String a t +:+ suffix) with (String a (t +:+ suffix)).
    cbn [remove_suffix]. by rewrite eqb_longer, IH.
Qed.

Lemma ends_with_app (suffix t : string) : ends_with suffix (t +:+ suffix) = true.
Proof.
  induction t as [|a t IH].
  - change (EmptyString +:+ suffix) with suffix.
    destruct suffix; cbn [ends_with]; by rewrite String.eqb_refl.
  - change (String a t +:+ suffix) with (String a (t +:+ suffix)).
    cbn [ends_with]. by rewrite IH, orb_true_r.
Qed.

Lemma remove_suffix_id (suffix t : string) :
  ends_with suffix t = false → remove_suffix suffix t = t.
Proof.
  induction t as [|a t IH]; cbn [ends_with remove_suffix].
  - by destruct (String.eqb EmptyString suffix).
  - intros [-> Ht]%orb_false_iff. by rewrite IH.
Qed.

(** X13. A rights entry of the second wiki is filed under the title of
    the user followed by the suffix of this wiki.  Such an entry is kept,
    and the group change made from it is the one made from the same
    entry under the plain title: it names the user without the suffix. *)
Theorem meta_event_names_local_user (suffix : string) (name : User)
    (groups_read : option (list string * list string)) (timestamp : Z) :
  ends_with suffix (user_page name) = false →
  is_local_user suffix (RightsEvent groups_read (Some (user_page name +:+ suffix)) timestamp)
  = true
  ∧ group_change_of suffix
      (RightsEvent groups_read (Some (user_page name +:+ suffix)) timestamp)
    = group_change_of suffix (RightsEvent groups_read (Some (user_page name)) timestamp)
  ∧ ∀ c, group_change_of suffix
           (RightsEvent groups_read (Some (user_page name +:+ suffix)) timestamp) = Some c →
         user c = name.
Proof.
  intros Hplain. unfold is_local_user, group_change_of.
  cbn [ev_title ev_groups ev_timestamp].
  rewrite ends_with_app, remove_suffix_app, remove_suffix_id by done.
  split_and!; [done..|]. intros c. destruct groups_read as [[newg oldg]|]; [|done].
  by intros [= <-].
Qed.

Lemma meta_event_names_local_user_witness :
  ends_with "@enwiki" (user_page "Alice") = false
  ∧ group_change_of "@enwiki"
      (RightsEvent (Some (["sysop"], [])) (Some "User:Alice@enwiki") 7)
    = Some (GroupChange "Alice" {["sysop"]} ∅ 7).
Proof.
  split; [reflexivity|].
  destruct (meta_event_names_local_user "@enwiki" "Alice" (Some (["sysop"], [])) 7)
    as (_ & Heq & _); [reflexivity|].
  etrans; [exact Heq | reflexivity].
Defined.

(** ** [validate_options] *)

Lemma get_item_Some {V} (d : list (string * V)) (k : string) (v : V) :
  NoDup d.*1 → get_item k d = Some v ↔ (k, v) ∈ d.
Proof.
  induction d as [|[k' v'] d IH]; cbn; intros Hnd.
  - rewrite elem_of_nil. by split.
  - apply NoDup_cons in Hnd as [Hk' Hnd]. rewrite elem_of_cons.
    destruct (String.eqb_spec k k') as [->|Hne].
    + split; [intros [= ->]; by left|]. intros [[= ->]|Hin]; [done|].
      destruct Hk'. apply elem_of_keys. eauto.
    + rewrite IH by done. split; [by right|]. intros [[= ? ?]|?]; done.
Qed.

Lemma get_item_None {V} (d : list (string * V)) (k : string) :
  get_item k d = None ↔ k ∉ d.*1.
Proof.
  induction d as [|[k' v'] d IH]; cbn.
  - split; [intros _; apply not_elem_of_nil|done].
  - rewrite not_elem_of_cons. destruct (String.eqb_spec k k') as [->|Hne].
    + split; [done|]. by intros [? _].
    + rewrite IH. tauto.
Qed.

Lemma keys_complete (req keys : list string) :
  NoDup req → NoDup keys →
  filter (λ k, k ∈ req) keys ≡ₚ req ↔ ∀ k, k ∈ req → k ∈ keys.
Proof.
  intros Hreq Hkeys. split.
  - intros Hp k Hk. rewrite <- Hp in Hk. by apply list_elem_of_filter in Hk as [_ ?].
  - intros Hall. apply NoDup_Permutation; [by apply NoDup_filter|done|].
    intros k. rewrite list_elem_of_filter. split; [tauto|]. auto.
Qed.

Section OptionFacts.
Context (strptime : string → option date).

Lemma set_item_convert (key : string) (v : option_value) (d : date)
    (options : list (string * option_value)) :
  NoDup options.*1 → (key, v) ∈ options → date_of strptime v = Some d →
  set_item key (VDate d) options = convert_date_option strptime key <$> options.
Proof.
  induction options as [|[k' v'] options IH]; intros Hnd Hin Hd.
  - by apply elem_of_nil in Hin.
  - cbn in Hnd. apply NoDup_cons in Hnd as [Hk' Hnd]. cbn [set_item fmap list_fmap].
    unfold convert_date_option at 1. cbn [fst snd].
    apply elem_of_cons in Hin as [[= <- <-]|Hin].
    + rewrite String.eqb_refl, Hd. f_equal.
      clear -Hk'. induction options as [|[k0 v0] options IH]; [done|].
      cbn in Hk'. apply not_elem_of_cons in Hk' as [Hne Hk']. cbn [fmap list_fmap].
      rewrite <- IH by done. f_equal. unfold convert_date_option. cbn [fst].
      by rewrite (proj2 (String.eqb_neq k0 key)).
    + assert (key ≠ k') as Hne by (intros ->; apply Hk', elem_of_keys; eauto).
      rewrite (proj2 (String.eqb_neq key k')) by done.
      rewrite (proj2 (String.eqb_neq k' key)) by done.
      f_equal. by apply IH.
Qed.

Lemma convert_absent (key : string) (options : list (string * option_value)) :
  key ∉ options.*1 → convert_date_option strptime key <$> options = options.
Proof.
  induction options as [|[k v] options IH]; [done|]. cbn.
  intros [Hne Hk]%not_elem_of_cons. rewrite IH by done. f_equal.
  unfold convert_date_option. cbn [fst]. by rewrite (proj2 (String.eqb_neq k key)).
Qed.

Lemma convert_keys (key : string) (options : list (string * option_value)) :
  (convert_date_option strptime key <$> options).*1 = options.*1.
Proof.
  induction options as [|[k v] options IH]; [done|]. cbn. rewrite IH. f_equal.
  unfold convert_date_option. cbn [fst]. by destruct (String.eqb k key).
Qed.

(** One date option: the check passes when the option is absent or
    stands for a date, and then every item under [key] is replaced by
    its date. *)
Lemma check_date_option_spec (key : string) (options : list (string * option_value)) :
  NoDup options.*1 →
  check_date_option strptime key options =
    match get_item key options with
    | Some v =>
        match date_of strptime v with
        | Some _ => Some (convert_date_option strptime key <$> options)
        | None => None
        end
    | None => Some (convert_date_option strptime key <$> options)
    end.
Proof.
  intros Hnd. unfold check_date_option.
  destruct (get_item key options) as [v|] eqn:Hg.
  - apply get_item_Some in Hg; [|done].
    destruct v as [d|s| |]; cbn [date_of]; try done.
    + by rewrite (set_item_convert key (VDate d) d).
    + destruct (strptime s) as [d|] eqn:Hs; [|done].
      by rewrite (set_item_convert key (VStr s) d).
  - apply get_item_None in Hg. by rewrite convert_absent.
Qed.

Lemma scan_options_spec (items : list (string * option_value)) (acc : list string) :
  scan_options items acc =
    if bool_decide (Forall (λ kv, check_option kv.1 kv.2 = true) items)
    then Some (acc ++ filter (λ k, k ∈ option_keys) items.*1)%list
    else None.
Proof.
  revert acc. induction items as [|[k v] items IH]; intros acc; cbn [scan_options].
  - rewrite bool_decide_eq_true_2 by constructor. cbn. by rewrite app_nil_r.
  - destruct (check_option k v) eqn:Hc.
    + rewrite IH. cbn [fmap list_fmap fst].
      destruct (bool_decide (Forall _ items)) eqn:Hall.
      * apply bool_decide_eq_true_1 in Hall.
        rewrite (bool_decide_eq_true_2 (Forall _ (_ :: _)))
          by (constructor; [exact Hc | exact Hall]).
        f_equal. case_bool_decide.
        -- rewrite filter_cons_True by done. by rewrite <- app_assoc.
        -- by rewrite filter_cons_False.
      * apply bool_decide_eq_false_1 in Hall.
        rewrite (bool_decide_eq_false_2 (Forall _ (_ :: _))); [done|].
        intros Hf. by inv Hf.
    + rewrite (bool_decide_eq_false_2 (Forall _ (_ :: _))); [done|].
      intros Hf. inv Hf. cbn in *. congruence.
Qed.

Lemma convert_twice (k : string) (v : option_value) :
  convert_date_option strptime "start_date"
    (convert_date_option strptime "end_date" (k, v))
  = (k, if bool_decide (k ∈ ["end_date"; "start_date"])
        then match date_of strptime v with Some d => VDate d | None => v end
        else v).
Proof.
  unfold convert_date_option. cbn [fst snd].
  destruct (String.eqb_spec k "end_date") as [->|Hne1]; cbn [fst snd].
  - rewrite bool_decide_eq_true_2 by set_solver. reflexivity.
  - destruct (String.eqb_spec k "start_date") as [->|Hne2].
    + rewrite bool_decide_eq_true_2 by set_solver. reflexivity.
    + rewrite bool_decide_eq_false_2 by set_solver. reflexivity.
Qed.

Lemma date_key_accepted (k : string) (v : option_value) :
  k ∈ ["end_date"; "start_date"] →
  option_accepted strptime k v ↔ is_Some (date_of strptime v).
Proof.
  intros Hk. unfold option_accepted.
  assert (String.eqb k "config" = false) as ->
    by (apply String.eqb_neq; intros ->; set_solver).
  rewrite bool_decide_eq_true_2 by done. destruct v as [d|s|b|]; cbn [date_of].
  - split; [by eexists | intros _; left; by eexists].
  - split.
    + intros [[d Hd]|(s' & [= <-] & Hs)]; [done | exact Hs].
    + intros Hs. right. by exists s.
  - split; [intros [[? ?]|(? & ? & _)]; done | by intros [? ?]].
  - split; [intros [[? ?]|(? & ? & _)]; done | by intros [? ?]].
Qed.

Lemma date_key_checked (k : string) (d : date) :
  k ∈ ["end_date"; "start_date"] → check_option k (VDate d) = true.
Proof.
  intros [->|[->|[]%elem_of_nil]%elem_of_cons]%elem_of_cons; reflexivity.
Qed.

Lemma other_key_checked (k : string) (v : option_value) :
  k ∉ ["end_date"; "start_date"] →
  check_option k v = true ↔ option_accepted strptime k v.
Proof.
  intros Hk. unfold check_option, option_accepted.
  rewrite (bool_decide_eq_false_2 _ Hk).
  destruct (String.eqb k "config").
  - destruct v; split; try done; try (by intros [? ?]); by eexists.
  - destruct (is_substring k "end_datestart_date").
    + destruct v; split; try done; try (by eexists);
        intros Hv; by destruct (Hv eq_refl).
    + split; [intros _ ?; done | done].
Qed.

(** The second loop on a converted item, seen on the item as given. *)
Lemma check_converted (k : string) (v : option_value) :
  (k ∈ ["end_date"; "start_date"] → is_Some (date_of strptime v)) →
  let kv := convert_date_option strptime "start_date"
              (convert_date_option strptime "end_date" (k, v)) in
  check_option kv.1 kv.2 = true ↔ option_accepted strptime k v.
Proof.
  intros Hd. cbn zeta. rewrite convert_twice. cbn [fst snd].
  case_bool_decide as Hk.
  - destruct (Hd Hk) as [d Hd']. rewrite Hd', date_key_checked by done.
    split; [|done]. intros _. apply date_key_accepted; [done|]. rewrite Hd'. by eexists.
  - by apply other_key_checked.
Qed.

Lemma get_item_convert_other (key key' : string) (options : list (string * option_value)) :
  key ≠ key' →
  get_item key (convert_date_option strptime key' <$> options) = get_item key options.
Proof.
  intros Hne. induction options as [|[k v] options IH]; [done|].
  cbn [fmap list_fmap]. unfold convert_date_option at 1. cbn [fst snd].
  destruct (String.eqb_spec k key') as [->|Hk]; cbn [get_item]; rewrite IH; [|done].
  by rewrite (proj2 (String.eqb_neq key key') Hne).
Qed.

(** The result of [validate_options] as a conjunction of its checks. *)
Lemma validate_options_result (options : list (string * option_value)) :
  NoDup options.*1 →
  let o2 := convert_date_option strptime "start_date"
              <$> (convert_date_option strptime "end_date" <$> options) in
  let date_ok key :=
    match get_item key options with
    | Some v => bool_decide (is_Some (date_of strptime v))
    | None => true
    end in
  (validate_options strptime options).1
  = date_ok "end_date" && date_ok "start_date"
    && bool_decide (Forall (λ kv, check_option kv.1 kv.2 = true) o2)
    && bool_decide (sorted_strings (filter (λ k, k ∈ option_keys) options.*1)
                    = sorted_strings option_keys)
  ∧ ((validate_options strptime options).1 = true →
     (validate_options strptime options).2 = o2).
Proof.
  intros Hnd. cbv beta zeta.
  set (o1 := convert_date_option strptime "end_date" <$> options).
  set (o2 := convert_date_option strptime "start_date" <$> o1).
  assert (o2.*1 = options.*1) as Hk2 by (unfold o2, o1; by rewrite !convert_keys).
  assert (NoDup o1.*1) as Hnd1 by (unfold o1; by rewrite convert_keys).
  assert (get_item "start_date" o1 = get_item "start_date" options) as Hg1
    by (unfold o1; by rewrite get_item_convert_other).
  remember (validate_options strptime options) as r eqn:Hr.
  unfold validate_options in Hr. rewrite check_date_option_spec in Hr by done.
  fold o1 in Hr.
  assert (∀ o : list (string * option_value),
            match (if bool_decide (Forall (λ kv, check_option kv.1 kv.2 = true) o2)
                      then Some (filter (λ k, k ∈ option_keys) options.*1) else None)
               with
               | Some has_keys =>
                   (bool_decide (sorted_strings has_keys = sorted_strings option_keys), o)
               | None => (false, o)
               end
               = (bool_decide (Forall (λ kv, check_option kv.1 kv.2 = true) o2)
                  && bool_decide (sorted_strings (filter (λ k, k ∈ option_keys) options.*1)
                                  = sorted_strings option_keys), o)) as Hscan
    by (intros o; by destruct (bool_decide (Forall _ o2))).
  assert (bool_decide (is_Some (@None date)) = false) as Hnone
    by (apply bool_decide_eq_false_2; by intros [? ?]).
  assert (∀ d : date, bool_decide (is_Some (Some d)) = true) as Hsome
    by (intros d; apply bool_decide_eq_true_2; by eexists).
  destruct (get_item "end_date" options) as [v1|]; cbn beta iota in Hr |- *.
  - destruct (date_of strptime v1) as [d1|]; cbn beta iota in Hr |- *.
    + rewrite check_date_option_spec in Hr by done. fold o2 in Hr. rewrite Hg1 in Hr.
      destruct (get_item "start_date" options) as [v2|]; cbn beta iota in Hr |- *.
      * destruct (date_of strptime v2) as [d2|]; cbn beta iota in Hr |- *.
        -- rewrite scan_options_spec, Hk2 in Hr. cbn [app] in Hr.
           rewrite Hscan in Hr. subst r. rewrite !Hsome. done.
        -- subst r. rewrite Hsome, Hnone. done.
      * rewrite scan_options_spec, Hk2 in Hr. cbn [app] in Hr.
        rewrite Hscan in Hr. subst r. rewrite Hsome. done.
    + subst r. rewrite Hnone. done.
  - rewrite check_date_option_spec in Hr by done. fold o2 in Hr. rewrite Hg1 in Hr.
    destruct (get_item "start_date" options) as [v2|]; cbn beta iota in Hr |- *.
    + destruct (date_of strptime v2) as [d2|]; cbn beta iota in Hr |- *.
      * rewrite scan_options_spec, Hk2 in Hr. cbn [app] in Hr.
        rewrite Hscan in Hr. subst r. rewrite Hsome. done.
      * subst r. rewrite Hnone. done.
    + rewrite scan_options_spec, Hk2 in Hr. cbn [app] in Hr.
      rewrite Hscan in Hr. subst r. done.
Qed.

Lemma date_ok_iff (key : string) (options : list (string * option_value)) :
  NoDup options.*1 →
  match get_item key options with
  | Some v => bool_decide (is_Some (date_of strptime v))
  | None => true
  end = true
  ↔ ∀ v, (key, v) ∈ options → is_Some (date_of strptime v).
Proof.
  intros Hnd. destruct (get_item key options) as [v|] eqn:Hg.
  - apply get_item_Some in Hg; [|done]. rewrite bool_decide_eq_true. split.
    + intros Hv v' Hin. apply get_item_Some in Hg, Hin; [|done..]. congruence.
    + intros H. by apply H.
  - apply get_item_None in Hg. split; [|done]. intros _ v Hin.
    destruct Hg. apply elem_of_keys. eauto.
Qed.

Lemma converted_item (options : list (string * option_value)) (k : string)
    (v : option_value) (d : date) :
  NoDup options.*1 → k ∈ ["end_date"; "start_date"] →
  (k, v) ∈ options → date_of strptime v = Some d →
  get_item k (convert_date_option strptime "start_date"
                <$> (convert_date_option strptime "end_date" <$> options))
  = Some (VDate d).
Proof.
  intros Hnd Hk Hin Hd. apply get_item_Some.
  - by rewrite !convert_keys.
  - rewrite <- list_fmap_compose. apply list_elem_of_fmap. exists (k, v).
    split; [|done]. cbn. rewrite convert_twice, Hd. by rewrite bool_decide_eq_true_2.
Qed.

Lemma validate_options_char (options : list (string * option_value)) :
  NoDup options.*1 →
  ((validate_options strptime options).1 = true
   ↔ (∀ k, k ∈ option_keys → k ∈ options.*1)
     ∧ (∀ k v, (k, v) ∈ options → option_accepted strptime k v))
  ∧ ((validate_options strptime options).1 = true →
     ∃ d1 d2,
       get_item "end_date" (validate_options strptime options).2 = Some (VDate d1)
       ∧ get_item "start_date" (validate_options strptime options).2 = Some (VDate d2)).
Proof.
  intros Hnd. destruct (validate_options_result options Hnd) as [Hb Ho].
  cbv beta zeta in Hb, Ho.
  assert (NoDup option_keys) as Hreq.
  { unfold option_keys. repeat (apply NoDup_cons; split; [set_solver|]). apply NoDup_nil_2. }
  assert ((validate_options strptime options).1 = true
          ↔ ((∀ v, ("end_date", v) ∈ options → is_Some (date_of strptime v))
             ∧ (∀ v, ("start_date", v) ∈ options → is_Some (date_of strptime v)))
            ∧ (∀ k v, (k, v) ∈ options →
                 let kv := convert_date_option strptime "start_date"
                             (convert_date_option strptime "end_date" (k, v)) in
                 check_option kv.1 kv.2 = true)
            ∧ (∀ k, k ∈ option_keys → k ∈ options.*1)) as Hiff.
  { rewrite Hb, !andb_true_iff, !date_ok_iff, !bool_decide_eq_true by done.
    rewrite sorted_strings_eq_iff, keys_complete by done.
    rewrite <- list_fmap_compose, Forall_fmap, Forall_forall.
    split.
    - intros [[[H1 H2] H3] H4]. split_and!; try done. intros k v Hin. exact (H3 (k, v) Hin).
    - intros [[H1 H2] [H3 H4]]. split_and!; try done. intros [k v] Hin. exact (H3 k v Hin). }
  assert (((∀ v, ("end_date", v) ∈ options → is_Some (date_of strptime v))
           ∧ (∀ v, ("start_date", v) ∈ options → is_Some (date_of strptime v)))
          ↔ ∀ k v, (k, v) ∈ options → k ∈ ["end_date"; "start_date"] →
                   is_Some (date_of strptime v)) as Hdates.
  { split.
    - intros [H1 H2] k v Hin [->|[->|[]%elem_of_nil]%elem_of_cons]%elem_of_cons; auto.
    - intros H. split; intros v Hin; apply (H _ _ Hin); set_solver. }
  split.
  - rewrite Hiff, Hdates. split.
    + intros (Hd & Hc & Hk). split; [done|]. intros k v Hin.
      apply check_converted; [by apply Hd|]. by apply Hc.
    + intros [Hk Hacc]. split_and!; [|  |done].
      * intros k v Hin Hkey. apply (date_key_accepted k v Hkey). by apply Hacc.
      * intros k v Hin. apply check_converted; [|by apply Hacc].
        intros Hkey. apply (date_key_accepted k v Hkey). by apply Hacc.
  - intros Htrue. rewrite (Ho Htrue). apply Hiff in Htrue as (Hd & _ & Hk).
    pose proof (proj1 Hdates Hd) as Hd'. clear Hd. rename Hd' into Hd.
    assert ("end_date" ∈ options.*1) as [v1 H1]%elem_of_keys by (apply Hk; set_solver).
    assert ("start_date" ∈ options.*1) as [v2 H2]%elem_of_keys by (apply Hk; set_solver).
    destruct (Hd _ _ H1 ltac:(set_solver)) as [d1 Hd1].
    destruct (Hd _ _ H2 ltac:(set_solver)) as [d2 Hd2].
    exists d1, d2. split; eapply converted_item; try done; set_solver.
Qed.

(** X14. [validate_options] accepts the options exactly when the three
    required options are there, [config] is a string, each of the two
    dates is a date or a string that parses as one, and every other
    option whose name occurs inside the text [end_datestart_date] holds a
    date (the test the code makes is a search in that text).  After an
    accepted call both date options hold dates. *)
Theorem validate_options_accepts (options : list (string * option_value)) :
  NoDup options.*1 →
  ((validate_options strptime options).1 = true
   ↔ (∀ k, k ∈ option_keys → k ∈ options.*1)
     ∧ (∀ k v, (k, v) ∈ options → option_accepted strptime k v))
  ∧ ((validate_options strptime options).1 = true →
     ∃ d1 d2,
       get_item "end_date" (validate_options strptime options).2 = Some (VDate d1)
       ∧ get_item "start_date" (validate_options strptime options).2 = Some (VDate d2)).
Proof. exact (validate_options_char options). Qed.
End OptionFacts.

Lemma validate_options_accepts_witness :
  let options :=
    [("end_date", VDate (Date 2020 1 6)); ("start_date", VStr "2020-01-05");
     ("config", VStr "User:Example/config.json"); ("rename", VBool true)] in
  NoDup options.*1
  ∧ (validate_options Samples.one_date options).1 = true
  ∧ ∃ d1 d2,
      get_item "end_date" (validate_options Samples.one_date options).2 = Some (VDate d1)
      ∧ get_item "start_date" (validate_options Samples.one_date options).2
        = Some (VDate d2).
Proof.
  cbn zeta.
  assert (NoDup [("end_date", VDate (Date 2020 1 6)); ("start_date", VStr "2020-01-05");
                 ("config", VStr "User:Example/config.json");
                 ("rename", VBool true)].*1) as Hnd.
  { cbn. repeat (apply NoDup_cons; split; [set_solver|]). apply NoDup_nil_2. }
  split; [exact Hnd|].
  destruct (validate_options_accepts Samples.one_date _ Hnd) as [_ Hd].
  split; [reflexivity|]. apply Hd. reflexivity.
Defined.

(** ** The command line *)

Lemma set_item_elem {V} (k : string) (v : V) (d : list (string * V)) k' v' :
  NoDup d.*1 →
  (k', v') ∈ set_item k v d ↔ (k' = k ∧ v' = v) ∨ (k' ≠ k ∧ (k', v') ∈ d).
Proof. exact (elem_of_set_item id k v d k' v'). Qed.

Lemma set_item_dom {V} (k : string) (v : V) (d : list (string * V)) k' :
  k' ∈ (set_item k v d).*1 ↔ k' = k ∨ k' ∈ d.*1.
Proof. exact (set_item_keys id k v d k'). Qed.

Lemma set_item_dict {V} (k : string) (v : V) (d : list (string * V)) :
  NoDup d.*1 → NoDup (set_item k v d).*1.
Proof. exact (set_item_NoDup id k v d). Qed.

Section ArgFacts.
Context (strptime : string → option date) (input : string → string).

Lemma parse_arg_unfold (options : list (string * option_value)) (arg : string) :
  parse_arg input options arg =
    if bool_decide (arg_name arg ∈ option_keys) then
      set_item (arg_name arg)
        (VStr (if String.eqb (arg_value arg) EmptyString
               then input (arg_name arg) else arg_value arg)) options
    else set_item (arg_name arg) (VBool true) options.
Proof.
  unfold parse_arg, arg_name, arg_value. by destruct (partition_colon arg).
Qed.

Lemma set_item_accepted (options : list (string * option_value)) (k : string)
    (v : option_value) :
  NoDup options.*1 →
  option_accepted strptime k v →
  (∀ k' v', (k', v') ∈ options → option_accepted strptime k' v') →
  ∀ k' v', (k', v') ∈ set_item k v options → option_accepted strptime k' v'.
Proof.
  intros Hnd Hkv Hall k' v' Hin.
  destruct (proj1 (set_item_elem k v options k' v' Hnd) Hin) as [[-> ->]|[_ Hin']];
    [done | by apply Hall].
Qed.

Lemma parse_arg_accepted (options : list (string * option_value)) (arg : string) :
  arg_accepted input strptime arg →
  option_accepted strptime (arg_name arg)
    (if bool_decide (arg_name arg ∈ option_keys)
     then VStr (if String.eqb (arg_value arg) EmptyString
                then input (arg_name arg) else arg_value arg)
     else VBool true).
Proof.
  intros [Hc|[[Hk Hd]|[Hk Hs]]].
  - rewrite Hc. rewrite bool_decide_eq_true_2 by (unfold option_keys; set_solver).
    unfold option_accepted. cbn. by eexists.
  - rewrite bool_decide_eq_true_2 by (unfold option_keys; set_solver).
    apply date_key_accepted; [done|]. exact Hd.
  - rewrite bool_decide_eq_false_2 by done. apply other_key_checked.
    + unfold option_keys in Hk. set_solver.
    + unfold check_option.
      rewrite (proj2 (String.eqb_neq (arg_name arg) "config"))
        by (intros Heq; apply Hk; rewrite Heq; unfold option_keys; set_solver).
      by rewrite Hs.
Qed.

(** X15. A command line is accepted when it gives [-config] and each
    of its arguments is [-config], a date option whose value (or the
    answer to the prompt, when the value is empty) parses as a date, or a
    flag whose name does not occur in the text [end_datestart_date]; the
    dates left out default to yesterday. *)
Theorem command_line_accepted (yesterday : date) (local_args : list string) :
  Forall (arg_accepted input strptime) local_args →
  (∃ arg, arg ∈ local_args ∧ arg_name arg = "config") →
  (validate_options strptime (parse_args input yesterday local_args)).1 = true.
Proof.
  intros Hall Hconfig. unfold parse_args.
  assert (∀ args options,
    Forall (arg_accepted input strptime) args →
    NoDup options.*1 →
    (∀ k v, (k, v) ∈ options → option_accepted strptime k v) →
    let options' := foldl (parse_arg input) options args in
    NoDup options'.*1
    ∧ (∀ k v, (k, v) ∈ options' → option_accepted strptime k v)
    ∧ (∀ k, k ∈ options.*1 ∨ (∃ arg, arg ∈ args ∧ arg_name arg = k) → k ∈ options'.*1))
    as Hloop.
  { induction args as [|arg args IH]; intros options Hargs Hnd Hacc; cbn zeta.
    - split_and!; [done..|]. intros k [?|(? & []%elem_of_nil & _)]. done.
    - apply Forall_cons in Hargs as [Harg Hargs]. cbn [foldl].
      destruct (IH (parse_arg input options arg)) as (Hnd' & Hacc' & Hk'); [done| | |].
      + rewrite parse_arg_unfold. case_bool_decide; by apply set_item_dict.
      + rewrite parse_arg_unfold. pose proof (parse_arg_accepted options arg Harg) as Hv.
        case_bool_decide; by apply set_item_accepted.
      + split_and!; [done..|]. intros k Hk. apply Hk'.
        destruct Hk as [Hk|(a & [->|Ha]%elem_of_cons & Hn)].
        * left. rewrite parse_arg_unfold. case_bool_decide; apply set_item_dom; by right.
        * left. rewrite parse_arg_unfold, Hn.
          case_bool_decide; apply set_item_dom; by left.
        * right. eauto. }
  destruct (Hloop local_args [("end_date", VDate yesterday); ("start_date", VDate yesterday)])
    as (Hnd & Hacc & Hk); [done| | |].
  - cbn. repeat (apply NoDup_cons; split; [set_solver|]). apply NoDup_nil_2.
  - intros k v [[= -> ->]|[[= -> ->]|[]%elem_of_nil]%elem_of_cons]%elem_of_cons;
      (apply date_key_accepted; [set_solver|by eexists]).
  - apply validate_options_char; [done|]. split; [|done].
    intros k [->|[->|[->|[]%elem_of_nil]%elem_of_cons]%elem_of_cons]%elem_of_cons;
      apply Hk.
    + right. destruct Hconfig as (a & ? & ?). eauto.
    + left. cbn. set_solver.
    + left. cbn. set_solver.
Qed.
End ArgFacts.

Section FlagFacts.
Context (strptime : string → option date) (input : string → string).

Lemma parse_args_dict (args : list string) (options : list (string * option_value)) :
  NoDup options.*1 → NoDup (foldl (parse_arg input) options args).*1.
Proof.
  revert options. induction args as [|arg args IH]; intros options Hnd; [done|].
  cbn [foldl]. apply IH. rewrite parse_arg_unfold. case_bool_decide; by apply set_item_dict.
Qed.

Lemma parse_args_flag (args : list string) (options : list (string * option_value))
    (name : string) :
  name ∉ option_keys → NoDup options.*1 →
  (name, VBool true) ∈ options ∨ (∃ arg, arg ∈ args ∧ arg_name arg = name) →
  (name, VBool true) ∈ foldl (parse_arg input) options args.
Proof.
  intros Hname. revert options. induction args as [|arg args IH]; intros options Hnd Hin.
  - destruct Hin as [?|(? & []%elem_of_nil & _)]. done.
  - cbn [foldl]. apply IH.
    + rewrite parse_arg_unfold. case_bool_decide; by apply set_item_dict.
    + destruct (decide (arg_name arg = name)) as [Heq|Hne].
      * left. rewrite parse_arg_unfold, Heq. rewrite bool_decide_eq_false_2 by done.
        apply set_item_elem; [done|]. by left.
      * destruct Hin as [Hin|(a & [->|Ha]%elem_of_cons & Hn)]; [|done|by eauto].
        left. rewrite parse_arg_unfold.
        case_bool_decide; (apply set_item_elem; [done|]); right; split; congruence.
Qed.

(** X16. The second test of [validate_options] is a search of the
    option name in the text [end_datestart_date].  So a flag whose name
    occurs in that text ([-start], [-date], [-end], a lone [-]) makes the
    options invalid, whatever the other arguments are. *)
Theorem flag_named_in_date_text_rejected (yesterday : date) (local_args : list string)
    (arg : string) :
  arg ∈ local_args →
  arg_name arg ∉ option_keys →
  is_substring (arg_name arg) "end_datestart_date" = true →
  (validate_options strptime (parse_args input yesterday local_args)).1 = false.
Proof.
  intros Hin Hname Hsub. unfold parse_args.
  assert (NoDup [("end_date", VDate yesterday); ("start_date", VDate yesterday)].*1) as Hnd0.
  { cbn. repeat (apply NoDup_cons; split; [set_solver|]). apply NoDup_nil_2. }
  pose proof (parse_args_dict local_args _ Hnd0) as Hnd.
  pose proof (parse_args_flag local_args _ (arg_name arg) Hname Hnd0
                (or_intror (ex_intro _ arg (conj Hin eq_refl)))) as Hflag.
  destruct ((validate_options strptime _).1) eqn:Hv; [|done].
  apply (validate_options_char strptime _ Hnd) in Hv as [_ Hacc].
  specialize (Hacc _ _ Hflag). unfold option_accepted in Hacc.
  rewrite (proj2 (String.eqb_neq (arg_name arg) "config")) in Hacc
    by (intros Heq; apply Hname; rewrite Heq; unfold option_keys; set_solver).
  rewrite bool_decide_eq_false_2 in Hacc
    by (intros Hk; apply Hname; unfold option_keys; set_solver).
  by destruct (Hacc Hsub).
Qed.
End FlagFacts.

Lemma command_line_accepted_witness :
  let local_args := ["-config:User:Example/config.json"; "-rename"; "-meta"; "-always"] in
  Forall (arg_accepted Samples.no_input Samples.one_date) local_args
  ∧ (validate_options Samples.one_date
       (parse_args Samples.no_input (Date 2020 1 4) local_args)).1 = true.
Proof.
  cbn zeta.
  assert (Forall (arg_accepted Samples.no_input Samples.one_date)
            ["-config:User:Example/config.json"; "-rename"; "-meta"; "-always"]) as Hall.
  { repeat apply Forall_cons_2; [| | | |apply Forall_nil_2]; unfold arg_accepted.
    - by left.
    - right; right. split; [|reflexivity]. cbn. unfold option_keys. set_solver.
    - right; right. split; [|reflexivity]. cbn. unfold option_keys. set_solver.
    - right; right. split; [|reflexivity]. cbn. unfold option_keys. set_solver. }
  split; [exact Hall|].
  apply (command_line_accepted Samples.one_date Samples.no_input); [exact Hall|].
  exists "-config:User:Example/config.json". split; [by left | reflexivity].
Defined.

Lemma flag_named_in_date_text_rejected_witness :
  let local_args := ["-config:User:Example/config.json"; "-start"] in
  (validate_options Samples.one_date
     (parse_args Samples.no_input (Date 2020 1 4) local_args)).1 = false.
Proof.
  cbn zeta.
  apply (flag_named_in_date_text_rejected Samples.one_date Samples.no_input
           (Date 2020 1 4) _ "-start").
  - set_solver.
  - cbn. unfold option_keys. set_solver.
  - reflexivity.
Defined.

(** ** The kill switch and the configuration page *)

Lemma all_space_rev_app (s1 s2 : string) :
  all_space (String.rev_app s1 s2) = all_space s1 && all_space s2.
Proof.
  revert s2. induction s1 as [|a s1 IH]; intros s2; [done|].
  cbn [String.rev_app all_space]. rewrite IH. cbn [all_space].
  destruct (Strip.is_space a), (all_space s1), (all_space s2); done.
Qed.

Lemma all_space_rev (s : string) : all_space (String.rev s) = all_space s.
Proof. unfold String.rev. rewrite all_space_rev_app. cbn. apply andb_true_r. Qed.

Lemma lstrip_empty (s : string) :
  Strip.lstrip s = EmptyString ↔ all_space s = true.
Proof.
  induction s as [|a s IH]; [done|]. cbn. destruct (Strip.is_space a); cbn; [done|].
  split; intros; discriminate.
Qed.

Lemma rev_app_empty (s1 s2 : string) :
  String.rev_app s1 s2 = EmptyString ↔ s1 = EmptyString ∧ s2 = EmptyString.
Proof.
  revert s2. induction s1 as [|a s1 IH]; intros s2; [naive_solver|].
  cbn [String.rev_app]. rewrite IH. split; intros [? ?]; discriminate.
Qed.

Lemma rev_empty (s : string) : String.rev s = EmptyString ↔ s = EmptyString.
Proof. unfold String.rev. rewrite rev_app_empty. naive_solver. Qed.

Lemma strip_empty (s : string) :
  Strip.strip s = EmptyString ↔ all_space s = true.
Proof.
  unfold Strip.strip. rewrite rev_empty, lstrip_empty, all_space_rev.
  split.
  - intros Hs. apply lstrip_empty. destruct s as [|a s]; [done|].
    revert Hs. generalize (String a s). clear. intros s.
    induction s as [|a s IH]; [done|]. cbn. destruct (Strip.is_space a) eqn:Ha; [done|].
    cbn. rewrite Ha. discriminate.
  - intros Hs. apply lstrip_empty in Hs. by rewrite Hs.
Qed.

(** X17. The bot is stopped exactly when the shutoff page exists and
    holds something else than white space: a missing page, an empty one
    or one of blanks and line ends lets it run. *)
Theorem check_disabled_iff (shutoff : wiki_page) :
  check_disabled shutoff = true
  ↔ page_exists shutoff = true ∧ all_space (page_get shutoff) = false.
Proof.
  unfold check_disabled. destruct (page_exists shutoff); [|naive_solver].
  cbv zeta. rewrite negb_true_iff, String.eqb_neq, strip_empty.
  rewrite not_true_iff_false. naive_solver.
Qed.

Section ConfigOutcome.
Context (json_loads : string → option json).
Context (content_model : string → string).

Lemma validate_entries_accepts (entries : list (string * json)) :
  (∀ title fields, (title, JObject fields) ∈ entries → is_dict fields) →
  validate_entries content_model entries = Return true
  ↔ Forall (λ e, ∃ fields, e.2 = JObject fields
               ∧ entry_accepted content_model e.1 fields) entries.
Proof.
  intros Hd. induction entries as [|[title pc] entries IH]; cbn [validate_entries].
  - split; [constructor|done].
  - rewrite Forall_cons. cbn [fst snd].
    destruct pc as [| | | | |fields]; try (split; [done|]; intros [(? & ? & _) _]; done).
    pose proof (validate_page_config_spec content_model title fields) as Hv.
    destruct (validate_page_config content_model title fields).
    + rewrite IH by (intros; eapply Hd; by right). split.
      * intros ?. split; [|done]. exists fields. split; [done|]. apply Hv; [|done].
        eapply Hd. by left.
      * tauto.
    + split; [done|]. intros [(f & [= <-] & Hacc) _]. apply Hv in Hacc; [done|].
      eapply Hd. by left.
Qed.

Lemma validate_entries_app (before rest : list (string * json)) :
  (∀ title fields, (title, JObject fields) ∈ before → is_dict fields) →
  Forall (λ e, ∃ fields, e.2 = JObject fields
             ∧ entry_accepted content_model e.1 fields) before →
  validate_entries content_model (before ++ rest)%list = validate_entries content_model rest.
Proof.
  intros Hd Hall. induction Hall as [|[title pc] before (fields & Heq & Hacc) _ IH]; [done|].
  cbn in Heq. subst pc. cbn [app validate_entries].
  rewrite (proj2 (validate_page_config_spec content_model title fields
                    (Hd _ _ ltac:(by left)))) by done.
  apply IH. intros. eapply Hd. by right.
Qed.

(** X18. The outcome of [validate_config] is settled by the first entry
    that is not an accepted object: the configuration is refused when
    that entry is an object, and the call raises [TypeError] when it is
    anything else, since the page cannot be stored in it.  The entries
    after it are not looked at. *)
Theorem validate_config_first_bad_entry (before after : list (string * json))
    (title : string) (value : json) :
  (∀ t fields, (t, JObject fields) ∈ (before ++ (title, value) :: after)%list → is_dict fields) →
  Forall (λ e, ∃ fields, e.2 = JObject fields
             ∧ entry_accepted content_model e.1 fields) before →
  (∀ fields, value = JObject fields → ¬ entry_accepted content_model title fields) →
  validate_config content_model (JObject (before ++ (title, value) :: after)%list)
  = match value with JObject _ => Return false | _ => Raise TypeError end.
Proof.
  intros Hd Hall Hbad. cbn [validate_config].
  rewrite validate_entries_app;
    [|intros; eapply Hd; apply elem_of_app; by left|done].
  cbn [validate_entries]. destruct value as [| | | | |fields]; try done.
  pose proof (validate_page_config_spec content_model title fields
                (Hd title fields ltac:(apply elem_of_app; right; by left))) as Hv.
  destruct (validate_page_config content_model title fields); [|done].
  destruct (Hbad fields eq_refl). by apply Hv.
Qed.

End ConfigOutcome.

(** ** Two pages of one user *)

Section LastWins.
Context (groups : User → gset string).

Lemma treat_target_frame cfg renames st t u :
  (is_user_ns t = true → final_user renames t ≠ u) →
  page_dict (treat_target groups cfg renames st t) !! u = page_dict st !! u.
Proof.
  intros Hu. destruct (is_user_ns t) eqn:Ht.
  - destruct (evicted groups cfg renames t) eqn:He.
    + by rewrite treat_target_evicted.
    + rewrite treat_target_kept by done. proj_state.
      by rewrite lookup_insert_ne by auto.
  - by rewrite treat_target_nonuser.
Qed.

Lemma targets_frame cfg renames st tgts u :
  (∀ t, t ∈ tgts → is_user_ns t = true → final_user renames t ≠ u) →
  page_dict (foldl (treat_target groups cfg renames) st tgts) !! u = page_dict st !! u.
Proof.
  revert st. induction tgts as [|t tgts IH]; intros st Hu; [done|].
  cbn [foldl]. rewrite IH by (intros; apply Hu; [by right|done]).
  apply treat_target_frame, Hu. by left.
Qed.

(** X20. The dictionary holds one page for each user, so of several
    targets of one user the last one is kept: a target that passes the
    required-group check, with no later target of the same user and no
    group change that names the user, is the page the user is left
    with. *)
Theorem last_target_of_user_kept (cfg : page_config) (renames : list rename)
    (group_changes : list group_change) (before after : list Page) (t : Page) :
  is_user_ns t = true →
  evicted groups cfg renames t = false →
  (∀ t', t' ∈ after → is_user_ns t' = true →
         final_user renames t' ≠ final_user renames t) →
  (∀ c, c ∈ group_changes → user c ≠ final_user renames t) →
  page_dict (reconcile groups cfg renames group_changes (before ++ t :: after)%list)
    !! final_user renames t = Some (final_page renames t).
Proof.
  intros Ht He Hafter Hchanges. unfold reconcile, seed.
  rewrite changes_frame by done.
  rewrite foldl_app. cbn [foldl]. rewrite targets_frame by done.
  rewrite treat_target_kept by done. proj_state. apply lookup_insert_eq.
Qed.
End LastWins.

Lemma last_target_of_user_kept_witness :
  let st := reconcile Samples.all_sysop Samples.sysop_required [] []
              ["User talk:Alice"; "User:Alice/Inbox"; "Wikipedia:Noticeboard"] in
  page_dict st !! "Alice" = Some "User:Alice/Inbox"
  ∧ new_targets String.le st = ["User:Alice/Inbox"; "Wikipedia:Noticeboard"].
Proof.
  cbn zeta. split; [|by vm_compute].
  apply (last_target_of_user_kept Samples.all_sysop Samples.sysop_required [] []
           ["User talk:Alice"] ["Wikipedia:Noticeboard"] "User:Alice/Inbox").
  - reflexivity.
  - reflexivity.
  - intros t' ->%list_elem_of_singleton Hns. by vm_compute in Hns.
  - intros c []%elem_of_nil.
Defined.

Lemma bot_never_added_witness :
  let groups : User → gset string := λ _, {["bot"; "sysop"]} in
  page_dict (foldl (handle_change groups Samples.sysop_policy) initial_state
               [GroupChange "Robot" {["sysop"]} ∅ 5]) !! "Robot" = None.
Proof.
  cbn zeta. apply bot_never_added; [set_solver | reflexivity].
Defined.

Lemma unlisted_renames_inert_witness :
  reconcile Samples.all_sysop Samples.sysop_policy [Rename "Carol" "Caroline" 3] []
    ["User talk:Alice"; "Wikipedia:Noticeboard"]
  = reconcile Samples.all_sysop Samples.sysop_policy [] []
      ["User talk:Alice"; "Wikipedia:Noticeboard"].
Proof.
  apply unlisted_renames_inert.
  intros r t ->%list_elem_of_singleton Ht _.
  apply elem_of_cons in Ht as [-> | ->%list_elem_of_singleton]; by vm_compute.
Defined.

Lemma validate_config_first_bad_entry_witness :
  validate_config Samples.mass_message
    (JObject [("Wikipedia:Administrators list",
               JObject [("enabled", JBool true); ("group", JString "sysop")]);
              ("Wikipedia:Bureaucrats list", JString "bureaucrat");
              ("Wikipedia:Other list", JObject [])])
  = Raise TypeError.
Proof.
  apply (validate_config_first_bad_entry Samples.mass_message
           [("Wikipedia:Administrators list",
             JObject [("enabled", JBool true); ("group", JString "sysop")])]
           [("Wikipedia:Other list", JObject [])]
           "Wikipedia:Bureaucrats list" (JString "bureaucrat")).
  - intros t fields Hin. unfold is_dict.
    apply list_elem_of_In in Hin. cbn in Hin.
    destruct Hin as [Heq|[Heq|[Heq|[]]]]; inversion Heq; subst; cbn.
    + repeat (apply NoDup_cons; split; [set_solver|]). apply NoDup_nil_2.
    + apply NoDup_nil_2.
  - apply Forall_cons_2; [|apply Forall_nil_2]. eexists. split; [reflexivity|].
    split_and!; [reflexivity| exists true; set_solver | exists "sysop"; set_solver |].
    intros k v Hkv. apply list_elem_of_In in Hkv. cbn in Hkv.
    destruct Hkv as [Heq|[Heq|[]]]; inversion Heq; subst.
    + left. split; [unfold switch_keys; set_solver | by exists true].
    + right; left. split; [done | by exists "sysop"].
  - intros fields [=].
Defined.

